(** * Full-duplex voice link: shallow embedding of the transport pipeline

    Sources embedded here:
    - src/src/communication/codec.py               (OpusCodec)
    - src/demo/duplex_public_wifi/core/audio_comm.py (AudioComm)
    - src/demo/duplex/rp5_full_duplex_modular.py    (FullDuplexModular, main)
    - src/demo/duplex/processors/ai_denoiser.py     (AIDenoiserProcessor)
    - src/demo/duplex/archive/v2_baseline/processors/bypass.py (BypassProcessor)

    Samples are exact rationals [Q]; the neural model, the Opus library, the
    UDP socket and the FIR taps of scipy's polyphase filter are external
    collaborators and appear as parameters of the Sections below. *)

From Stdlib Require Import String.
From Stdlib Require Import List Arith Lia NArith QArith Qminmax Qabs Lqa.
Import ListNotations.
Open Scope list_scope.

(** ** Python exceptions and fallible results *)

Inductive exn :=
| SocketTimeout      (* socket.timeout *)
| OSError            (* any other socket error *)
| QueueFull          (* queue.Full *)
| QueueEmpty         (* queue.Empty *)
| ValueError         (* e.g. max() of an empty array *)
| TypeError          (* e.g. len() of a 0-d array *)
| IndexError         (* list index out of range *)
| RuntimeError.      (* errors raised inside opuslib / torch / model loading *)

Inductive res (A : Type) :=
| Ok (a : A)
| Raise (e : exn).
Arguments Ok {A} a.
Arguments Raise {A} e.

Definition frame := list Q.
Definition packet := list Byte.byte.

(** [np.zeros(n, dtype=np.float32)] *)
Definition zeros (n : nat) : frame := repeat 0%Q n.

(** [np.abs(x).max()]: raises [ValueError] on an empty array. *)
Definition max_abs (xs : list Q) : res Q :=
  match xs with
  | [] => Raise ValueError
  | x :: r => Ok (fold_left (fun m y => Qmax m (Qabs y)) r (Qabs x))
  end.

(** [np.clip(x, lo, hi)] = [minimum(maximum(x, lo), hi)]. *)
Definition clip (x lo hi : Q) : Q := Qmin (Qmax x lo) hi.

(** ** OpusCodec (src/src/communication/codec.py) *)
Module Codec.

  (** [self.frame_size = int(sample_rate * frame_duration / 1000)] *)
Definition frame_size (sample_rate frame_duration : N) : nat :=
    N.to_nat (sample_rate * frame_duration / 1000)%N.

  (** AudioComm builds its codec with sample_rate=16000, frame_duration=20. *)
Definition comm_frame_size : nat := frame_size 16000%N 20%N.

  (** [(audio * 32767).astype(np.int16)] on one sample: truncation toward zero
      (the cast of a value outside the int16 range is platform-defined in
      numpy and is not modelled; for samples in [-1, 1] it never occurs). *)
Definition to_int16 (s : Q) : Z :=
    let q := (s * 32767)%Q in Z.quot (Qnum q) (Zpos (Qden q)).

Definition to_pcm (audio : frame) : list Z := map to_int16 audio.

  (** [np.frombuffer(decoded, dtype=np.int16).astype(np.float32) / 32767.0] *)
Definition from_pcm (pcm : list Z) : frame :=
    map (fun s => (inject_Z s / 32767)%Q) pcm.

  Section Ops.
    (** [self.encoder.encode(pcm_bytes, frame_size)] and
        [self.decoder.decode(packet, frame_size)] of opuslib; either may raise. *)
Variable opus_encode : list Z -> nat -> res packet.
Variable opus_decode : packet -> nat -> res (list Z).
Variable fs : nat.

    (** [OpusCodec.encode]: returns [b''] when the encoder raises. *)
Definition encode (audio : frame) : packet :=
      match opus_encode (to_pcm audio) fs with
      | Ok encoded => encoded
      | Raise _ => []
      end.

    (** [OpusCodec.decode]: returns [np.zeros(frame_size)] when decoding raises. *)
Definition decode (p : packet) : frame :=
      match opus_decode p fs with
      | Ok decoded => from_pcm decoded
      | Raise _ => zeros fs
      end.
  End Ops.

End Codec.

(** ** AudioComm (src/demo/duplex_public_wifi/core/audio_comm.py) *)
Module Comm.

  (** What [self.recv_socket.recvfrom(4096)] yields within its 0.1 s timeout. *)
Inductive recv_outcome :=
  | Datagram (data : packet)
  | RecvTimeout
  | RecvError.

Record counters := mk_counters { recv_count : nat; timeout_count : nat }.

  Section Receive.
Variable opus_decode : packet -> nat -> res (list Z).

    (** The body of the [try] block of [AudioComm.receive]. *)
Definition receive_try (c : counters) (o : recv_outcome) : counters * res frame :=
      match o with
      | Datagram data =>
          let audio_16k := Codec.decode opus_decode Codec.comm_frame_size data in
          (mk_counters (S (recv_count c)) (timeout_count c), Ok audio_16k)
      | RecvTimeout => (c, Raise SocketTimeout)
      | RecvError => (c, Raise OSError)
      end.

    (** [AudioComm.receive] with its two [except] handlers. *)
Definition receive (c : counters) (o : recv_outcome) : counters * res frame :=
      match receive_try c o with
      | (c', Ok a) => (c', Ok a)
      | (c', Raise SocketTimeout) =>
          (mk_counters (recv_count c') (S (timeout_count c')), Ok (zeros 320))
      | (c', Raise _) => (c', Ok (zeros 320))
      end.
  End Receive.

  Section Send.
Variable opus_encode : list Z -> nat -> res packet.
    (** [self.send_socket.sendto(packet, (peer_ip, send_port))]; may raise. *)
Variable sendto : packet -> res unit.

    (** [AudioComm.send]: the datagrams put on the wire so far are [wire]. *)
Definition send (wire : list packet) (audio_16k : frame) : list packet * bool :=
      let p := Codec.encode opus_encode Codec.comm_frame_size audio_16k in
      match sendto p with
      | Ok _ => (wire ++ [p], true)
      | Raise _ => (wire, false)
      end.
  End Send.

End Comm.

(** Strict comparison on [Q] as a boolean ([a < b] in numpy). *)
Definition qlt (a b : Q) : bool := negb (Qle_bool b a).

Definition eps6 : Q := 1 # 1000000.      (* 1e-6 *)
Definition eps8 : Q := 1 # 100000000.    (* 1e-8 *)

(** ** Polyphase resampling ([scipy.signal.resample_poly]) and the
       AudioComm resamplers *)
Module Resample.

  (** Output length computed by [resample_poly]:
      [g = gcd(up, down); up //= g; down //= g;
       n_out = n_in * up; n_out = n_out // down + bool(n_out % down)]. *)
Definition out_len (n_in up down : nat) : nat :=
    let g := Nat.gcd up down in
    let up' := (up / g)%nat in
    let down' := (down / g)%nat in
    let n_out := (n_in * up')%nat in
    (n_out / down' + (if n_out mod down' =? 0 then 0 else 1))%nat.

  Section Poly.
    (** [fir x up down i]: the i-th output sample of the Kaiser-windowed FIR
        bank applied to [x]; its values play no role in the lengths. *)
Variable fir : list Q -> nat -> nat -> nat -> Q.

Definition resample_poly (x : list Q) (up down : nat) : list Q :=
      let g := Nat.gcd up down in
      if (up / g =? 1)%nat && (down / g =? 1)%nat then x   (* [return x.copy()] *)
      else map (fir x up down) (seq 0 (out_len (length x) up down)).

    (** [AudioComm.downsample_48k_to_16k] (the (n,1) capture array is
        represented flattened). *)
Definition downsample_48k_to_16k (audio_48k : frame) : res frame :=
      match max_abs audio_48k with
      | Raise e => Raise e
      | Ok input_level =>
          let audio_16k := resample_poly audio_48k 1 3 in
          match max_abs audio_16k with
          | Raise e => Raise e
          | Ok output_level =>
              if qlt eps6 output_level && qlt eps6 input_level then
                let gain := clip (input_level / (output_level + eps8)) (1 # 2) 2 in
                Ok (map (fun s => s * gain) audio_16k)
              else Ok audio_16k
          end
      end.

    (** [AudioComm.upsample_16k_to_48k] *)
Definition upsample_16k_to_48k (audio_16k : frame) : frame :=
      resample_poly audio_16k 3 1.
  End Poly.

  (** Python's [round(n / 3)] (never a tie, so banker's rounding does not
      matter): the nearest integer to n/3. *)
Definition round_third (n : nat) : nat := ((2 * n + 3) / 6)%nat.

End Resample.

(** ** Processors *)
Module Processors.

  (** [BypassProcessor.process] (archive/v2_baseline/processors/bypass.py) *)
Definition bypass_process (audio : frame) : frame := audio.

  (** The processors [main] can put in the list. *)
Inductive processor :=
  | Bypass
  | AIDenoiser (model_name : string)
  | ClassicalFilters.

  Section AI.
    (** [self.denoiser(input_tensor)]: the JIT-traced model; may raise. *)
Variable denoiser : list Q -> res (list Q).

    (** [AIDenoiserProcessor.process] (demo/duplex/processors/ai_denoiser.py).
        Timing, RMS and logging do not influence the returned frame and are
        left out; the final [astype(np.float32)] is not modelled. *)
Definition ai_process (audio : frame) : res frame :=
      match max_abs audio with
      | Raise e => Raise e
      | Ok input_peak =>
          let audio_normalized :=
            if qlt eps6 input_peak
            then map (fun s => clip (s / (input_peak + eps8)) (-1) 1) audio
            else audio in
          (* both tensor branches hand exactly [audio_normalized] to the model *)
          match denoiser audio_normalized with
          | Raise e => Raise e
          | Ok output_np =>
              (* [output_tensor.squeeze()] of a single sample is 0-d: [len] raises *)
              if (length output_np =? 1)%nat then Raise TypeError else
              match max_abs output_np with
              | Raise e => Raise e
              | Ok output_peak =>
                  let output :=
                    if qlt 1 output_peak
                    then map (fun s => clip (s / (output_peak + eps8)) (-1) 1) output_np
                    else output_np in
                  let output :=
                    if qlt eps6 input_peak
                    then map (fun s => s * Qmin (input_peak * (105 # 100)) 1) output
                    else output in
                  Ok output
              end
          end
      end.
  End AI.

  (** [processor.process(audio)] dispatched on the processor; the
      ClassicalFilters placeholder returns its input (classical_filters.py). *)
Definition run (denoiser : list Q -> res (list Q)) (p : processor) (audio : frame)
    : res frame :=
    match p with
    | Bypass => Ok (bypass_process audio)
    | AIDenoiser _ => ai_process denoiser audio
    | ClassicalFilters => Ok audio
    end.

  (** The keys of the YAML config that [main] reads for processors;
      [None] is an absent key ([config.get(key, default)]). *)
Record config := mk_config {
    enable_ai : option bool;
    ai_model : option string;
    enable_classical : option bool }.

Definition get {A} (o : option A) (default : A) : A :=
    match o with Some a => a | None => default end.

  Section Main.
    (** [AIDenoiserProcessor(model_name=...)]: loading the model may raise. *)
Variable load_ai : string -> res processor.

    (** The processor list built by [main] (rp5_full_duplex_modular.py). *)
Definition main_processors (cfg : config) : list processor :=
      let processors := [Bypass] in
      let processors :=
        if get (enable_ai cfg) true then
          match load_ai (get (ai_model cfg) "Light-32-Depth4"%string) with
          | Ok p => processors ++ [p]
          | Raise _ => processors          (* print("Failed to load AI model") *)
          end
        else processors in
      if get (enable_classical cfg) false then processors ++ [ClassicalFilters]
      else processors.

    (** Outcome of [main]'s startup: [Ok procs] means [FullDuplexModular]
        is created with [procs] and [comm.run()] starts the threads. *)
Definition main_startup (cfg : config) : res (list processor) :=
      Ok (main_processors cfg).
  End Main.

End Processors.

(** ** FullDuplexModular (src/demo/duplex/rp5_full_duplex_modular.py) *)
Module Duplex.
  Import Processors.

  (** The session state shared by the callbacks and the worker threads.
      [net] is what the receive socket will deliver next ([[]]: nothing
      arrives before the timeout); [wire] the datagrams sent so far.
      The monitoring levels ([mic_level], ...) are left out. *)
Record duplex := mk_duplex {
    send_queue : list frame;
    recv_queue : list frame;
    buffer_size : nat;
    current_idx : nat;
    packets_sent : nat;
    packets_received : nat;
    wire : list packet;
    net : list Comm.recv_outcome;
    comm : Comm.counters;
    running : bool }.

Definition set_send_queue q s :=
    mk_duplex q (recv_queue s) (buffer_size s) (current_idx s) (packets_sent s)
      (packets_received s) (wire s) (net s) (comm s) (running s).
Definition set_recv_queue q s :=
    mk_duplex (send_queue s) q (buffer_size s) (current_idx s) (packets_sent s)
      (packets_received s) (wire s) (net s) (comm s) (running s).
Definition set_current_idx i s :=
    mk_duplex (send_queue s) (recv_queue s) (buffer_size s) i (packets_sent s)
      (packets_received s) (wire s) (net s) (comm s) (running s).
Definition set_wire w s :=
    mk_duplex (send_queue s) (recv_queue s) (buffer_size s) (current_idx s)
      (packets_sent s) (packets_received s) w (net s) (comm s) (running s).
Definition set_net_comm n c s :=
    mk_duplex (send_queue s) (recv_queue s) (buffer_size s) (current_idx s)
      (packets_sent s) (packets_received s) (wire s) n c (running s).
Definition set_running b s :=
    mk_duplex (send_queue s) (recv_queue s) (buffer_size s) (current_idx s)
      (packets_sent s) (packets_received s) (wire s) (net s) (comm s) b.
Definition inc_sent s :=
    mk_duplex (send_queue s) (recv_queue s) (buffer_size s) (current_idx s)
      (S (packets_sent s)) (packets_received s) (wire s) (net s) (comm s) (running s).
Definition inc_received s :=
    mk_duplex (send_queue s) (recv_queue s) (buffer_size s) (current_idx s)
      (packets_sent s) (S (packets_received s)) (wire s) (net s) (comm s) (running s).

  (** [FullDuplexModular.__init__]: empty queues of [maxsize=buffer_size],
      [current_idx = initial_processor], zero counters, [running = True]. *)
Definition init (buffer_size initial_processor : nat) : duplex :=
    mk_duplex [] [] buffer_size initial_processor 0 0 [] [] (Comm.mk_counters 0 0) true.

  (** [queue.Queue(maxsize).put(x, block=False)]: with [maxsize > 0] a queue
      holding [maxsize] items raises [queue.Full]; [maxsize <= 0] is unbounded. *)
Definition put_nowait (maxsize : nat) (q : list frame) (x : frame) : res (list frame) :=
    if (0 <? maxsize) && (maxsize <=? length q) then Raise QueueFull
    else Ok (q ++ [x]).

  (** [queue.Queue.get(timeout=...)] / [get(block=False)] *)
Definition get_nowait (q : list frame) : res (frame * list frame) :=
    match q with
    | [] => Raise QueueEmpty
    | x :: r => Ok (x, r)
    end.

  (** [indata.mean(axis=1, keepdims=True)] of a (frames, 2) block. *)
Definition to_mono (indata : list (Q * Q)) : frame :=
    map (fun '(l, r) => (l + r) / 2) indata.

  (** [mic_callback] *)
Definition mic_callback (s : duplex) (indata : list (Q * Q)) : res duplex :=
    let mono := to_mono indata in
    match max_abs mono with                      (* self.mic_level = ... *)
    | Raise e => Raise e
    | Ok _ =>
        match put_nowait (buffer_size s) (send_queue s) mono with
        | Ok q => Ok (set_send_queue q s)
        | Raise QueueFull => Ok s                 (* except queue.Full: pass *)
        | Raise e => Raise e
        end
    end.

  (** ** The worker threads' loop bodies, in a state / exception / trace monad *)

  (** The stages a loop iteration goes through, in the order it calls them. *)
Inductive stage :=
  | Dequeue | Downsample | Process | Encode | Send
  | Receive | Decode | Upsample | Enqueue.

Definition M (A : Type) := duplex -> list stage * duplex * res A.

Definition ret {A} (a : A) : M A := fun s => ([], s, Ok a).
Definition bind {A B} (m : M A) (k : A -> M B) : M B := fun s =>
    match m s with
    | (l, s', Ok a) => let '(l', s'', r) := k a s' in (l ++ l', s'', r)
    | (l, s', Raise e) => (l, s', Raise e)
    end.
Notation "x <- m ;; k" := (bind m (fun x => k))
    (at level 61, m at next level, right associativity).

  (** [try: m except ...: h] *)
Definition try_except {A} (m : M A) (h : exn -> M A) : M A := fun s =>
    match m s with
    | (l, s', Raise e) => let '(l', s'', r) := h e s' in (l ++ l', s'', r)
    | ok => ok
    end.

  (** A call of stage [st] with result [r] that leaves the state alone. *)
Definition call {A} (st : stage) (r : res A) : M A := fun s => ([st], s, r).
  (** A computation that is not a pipeline stage. *)
Definition pure {A} (r : res A) : M A := fun s => ([], s, r).
Definition modify (f : duplex -> duplex) : M unit := fun s => ([], f s, Ok tt).
  (** The state a computation leaves behind, whatever its result. *)
Definition final {A} (m : M A) (s : duplex) : duplex := let '(_, s', _) := m s in s'.
  Section Threads.
Variable fir : list Q -> nat -> nat -> nat -> Q.
Variable opus_encode : list Z -> nat -> res packet.
Variable opus_decode : packet -> nat -> res (list Z).
Variable sendto : packet -> res unit.
    (** [self.processors] and the dispatch of [processor.process]. *)
Variable processors : list processor.
Variable run_processor : processor -> frame -> res frame.

    (** [self.send_queue.get(timeout=0.1)] *)
Definition dequeue_send : M frame := fun s =>
      match get_nowait (send_queue s) with
      | Ok (x, q) => ([Dequeue], set_send_queue q s, Ok x)
      | Raise e => ([Dequeue], s, Raise e)
      end.

    (** [self.comm.send(audio_16k)], i.e. [AudioComm.send] unfolded into its
        two calls: [self.codec.encode] and [self.send_socket.sendto]. *)
Definition comm_send (audio_16k : frame) : M bool :=
      p <- call Encode (Ok (Codec.encode opus_encode Codec.comm_frame_size audio_16k)) ;;
      (fun s => match sendto p with
                | Ok _ => ([Send], set_wire (wire s ++ [p]) s, Ok true)
                | Raise _ => ([Send], s, Ok false)
                end).

    (** One iteration of the [while self.running] loop of [send_thread]. *)
Definition send_body : M unit :=
      try_except
        (audio_48k <- dequeue_send ;;
         audio_16k <- call Downsample (Resample.downsample_48k_to_16k fir audio_48k) ;;
         _ <- pure (max_abs audio_16k) ;;            (* self.processed_level *)
         ok <- comm_send audio_16k ;;
         if ok then modify inc_sent else ret tt)
        (fun _ => ret tt).       (* except queue.Empty: continue / except Exception: print *)

    (** [self.comm.receive()]: [recvfrom] and, for a datagram, [codec.decode]. *)
Definition comm_receive : M frame := fun s =>
      let '(o, rest) := match net s with
                        | [] => (Comm.RecvTimeout, [])
                        | o :: rest => (o, rest)
                        end in
      let '(c', r) := Comm.receive opus_decode (comm s) o in
      let trace := match o with Comm.Datagram _ => [Receive; Decode] | _ => [Receive] end in
      (trace, set_net_comm rest c' s, r).

    (** [processor = self.processors[self.current_idx]; processor.process(audio_16k)] *)
Definition process_current (audio_16k : frame) : M frame := fun s =>
      match nth_error processors (current_idx s) with
      | Some p => ([Process], s, run_processor p audio_16k)
      | None => ([], s, Raise IndexError)
      end.

    (** [self.recv_queue.put(audio_48k.reshape(-1, 1), block=False)] *)
Definition enqueue_recv (audio_48k : frame) : M unit := fun s =>
      match put_nowait (buffer_size s) (recv_queue s) audio_48k with
      | Ok q => ([Enqueue], set_recv_queue q s, Ok tt)
      | Raise e => ([Enqueue], s, Raise e)
      end.

    (** One iteration of the [while self.running] loop of [recv_thread]. *)
Definition recv_body : M unit :=
      try_except
        (audio_16k <- comm_receive ;;
         audio_16k <- (fun s => if (0 <? current_idx s)%nat   (* AI mode only *)
                                then process_current audio_16k s
                                else ret audio_16k s) ;;
         _ <- pure (max_abs audio_16k) ;;            (* self.decoded_level *)
         audio_48k <- call Upsample (Ok (Resample.upsample_16k_to_48k fir audio_16k)) ;;
         _ <- enqueue_recv audio_48k ;;
         modify inc_received)
        (fun _ => ret tt).       (* except queue.Full: pass / except Exception: print *)

    (** One line read by [toggle_thread] (after [.strip().lower()]). *)
Definition toggle_body (s : duplex) (line : string) : duplex :=
      if String.eqb line "q" then set_running false s
      else set_current_idx ((current_idx s + 1) mod length processors) s.

    (** [toggle_thread]: [while self.running], one input line per iteration. *)
Fixpoint toggle_thread (s : duplex) (lines : list string) : duplex :=
      if running s then
        match lines with
        | [] => s
        | line :: rest => toggle_thread (toggle_body s line) rest
        end
      else s.
  End Threads.

  (** Events seen by the capture queue: a block delivered to [mic_callback]
      or a [get] by [send_thread]. *)
Inductive capture_event :=
  | MicBlock (indata : list (Q * Q))
  | SendGet.

Fixpoint capture_run (s : duplex) (evs : list capture_event) : duplex :=
    match evs with
    | [] => s
    | MicBlock d :: rest =>
        capture_run (match mic_callback s d with Ok s' => s' | Raise _ => s end) rest
    | SendGet :: rest =>
        capture_run (match get_nowait (send_queue s) with
                     | Ok (_, q) => set_send_queue q s
                     | Raise _ => s
                     end) rest
    end.
(** [speaker_callback]: [np.repeat(mono_data, 2, axis=1)] copies the block to
    both channels, and [outdata[:] = stereo_data] needs [frames] rows (a single
    row broadcasts, any other count raises); [speaker_level] takes the max of
    the block first, which raises on an empty block. On [queue.Empty] the
    output is filled with zeros. The block is already dequeued when a later
    step raises. *)
Definition speaker_callback (s : duplex) (frames : nat) : duplex * res (list (Q * Q)) :=
  match get_nowait (recv_queue s) with
  | Raise _ => (s, Ok (repeat (0%Q, 0%Q) frames))
  | Ok (mono, q) =>
      let s' := set_recv_queue q s in
      let stereo := map (fun x => (x, x)) mono in
      match max_abs mono with
      | Raise e => (s', Raise e)
      | Ok _ =>
          if (length stereo =? frames)%nat then (s', Ok stereo)
          else match stereo with
               | [row] => (s', Ok (repeat row frames))
               | _ => (s', Raise ValueError)
               end
      end
  end.
End Duplex.

(** ** The public-WiFi variant (src/demo/duplex_public_wifi/rp5_full_duplex_modular.py),
       the caller of the AudioComm modelled above *)
Module PublicWifi.


(** The queue flush at the top of [send_thread]: when more than 5 frames
    wait, [get_nowait] drops the oldest until at most 3 remain. *)
Fixpoint drop_oldest (q : list frame) : list frame :=
  match q with
  | [] => []
  | _ :: rest => if (3 <? length q)%nat then drop_oldest rest else q
  end.

Definition flush_send_queue (q : list frame) : list frame :=
  if (5 <? length q)%nat then drop_oldest q else q.

(** [num_chunks = len(audio_processed) // 320] and
    [chunk_320 = audio_processed[i*320:(i+1)*320]]. *)
Definition chunks_320 (audio : frame) : list frame :=
  map (fun i => firstn 320 (skipn (i * 320) audio)) (seq 0 (length audio / 320)).

Section Send.
Variable opus_encode : list Z -> nat -> res packet.
Variable sendto : packet -> res unit.

(** [for i in range(num_chunks): if self.comm.send(chunk_320): packets_sent += 1]
    over the datagrams on the wire and the counter. *)
Definition send_chunks (wire : list packet) (sent : nat) (audio : frame)
  : list packet * nat :=
  fold_left (fun '(w, n) chunk =>
               let '(w', ok) := Comm.send opus_encode sendto w chunk in
               (w', if ok then S n else n))
            (chunks_320 audio) (wire, sent).
End Send.


Section Recv.
Variable fir : list Q -> nat -> nat -> nat -> Q.
Variable opus_decode : packet -> nat -> res (list Z).

End Recv.

End PublicWifi.

(** * Properties *)

(** ** Sanity checks of the embedding on small inputs *)

Example comm_frame_size_320 : Codec.comm_frame_size = 320%nat.
Proof. reflexivity. Qed.

Example out_len_960_down : Resample.out_len 960 1 3 = 320%nat.
Proof. reflexivity. Qed.

Example out_len_320_up : Resample.out_len 320 3 1 = 960%nat.
Proof. reflexivity. Qed.

Example round_third_small :
  map Resample.round_third [0; 1; 2; 3; 4; 5]%nat = [0; 0; 1; 1; 1; 2]%nat.
Proof. reflexivity. Qed.

(** ** Transport receive *)

(** C1: [AudioComm.receive] never raises: a datagram gives the decoded frame
    ([OpusCodec.decode] of it, itself 320 zeros when opuslib fails); a timeout
    or a socket error gives 320 zero samples. *)
Theorem receive_never_raises :
  forall (opus_decode : packet -> nat -> res (list Z)) c o,
    exists c' fr,
      Comm.receive opus_decode c o = (c', Ok fr) /\
      match o with
      | Comm.Datagram d =>
          match opus_decode d 320%nat with
          | Ok pcm => fr = Codec.from_pcm pcm
          | Raise _ => fr = zeros 320 /\ length fr = 320%nat
          end
      | _ => fr = zeros 320 /\ length fr = 320%nat
      end.
Proof.
  intros dec c [d| |]; unfold Comm.receive, Comm.receive_try.
  - unfold Codec.decode; rewrite comm_frame_size_320.
    destruct (dec d 320%nat) as [pcm|e]; eexists; eexists; split; try reflexivity.
    split; [reflexivity | apply repeat_length].
  - eexists; eexists; split; [reflexivity | split; [reflexivity | apply repeat_length]].
  - eexists; eexists; split; [reflexivity | split; [reflexivity | apply repeat_length]].
Qed.

(** ** Bypass *)

(** C7: [BypassProcessor.process] returns its input unchanged. *)
Theorem bypass_identity : forall x, Processors.bypass_process x = x.
Proof. reflexivity. Qed.

(** ** Processor toggle *)

Lemma toggle_body_idx_lt :
  forall procs s line,
    procs <> [] -> (Duplex.current_idx s < length procs)%nat ->
    (Duplex.current_idx (Duplex.toggle_body procs s line) < length procs)%nat.
Proof.
  intros procs s line Hne Hlt. unfold Duplex.toggle_body.
  destruct (String.eqb line "q"); simpl; [exact Hlt|].
  apply Nat.mod_upper_bound. destruct procs; [congruence | simpl; lia].
Qed.

Lemma toggle_thread_idx_lt :
  forall procs lines s,
    procs <> [] -> (Duplex.current_idx s < length procs)%nat ->
    (Duplex.current_idx (Duplex.toggle_thread procs s lines) < length procs)%nat.
Proof.
  intros procs lines. induction lines as [|l rest IH]; intros s Hne Hlt; simpl;
    destruct (Duplex.running s); auto.
  apply IH; [exact Hne | apply toggle_body_idx_lt; assumption].
Qed.

(** C10: with a non-empty processor list and a start index in range, every
    toggle line sets the index to [(index + 1) mod len(processors)], and after
    any sequence of input lines the index is in range, so
    [processors[current_idx]] finds a processor. *)
Theorem toggle_index_in_range :
  forall procs s lines,
    procs <> [] -> (Duplex.current_idx s < length procs)%nat ->
    (forall line, line <> "q"%string ->
       Duplex.current_idx (Duplex.toggle_body procs s line)
       = ((Duplex.current_idx s + 1) mod length procs)%nat) /\
    let s' := Duplex.toggle_thread procs s lines in
    (Duplex.current_idx s' < length procs)%nat /\
    exists p, nth_error procs (Duplex.current_idx s') = Some p.
Proof.
  intros procs s lines Hne Hlt. split.
  - intros line Hq. unfold Duplex.toggle_body.
    destruct (String.eqb_spec line "q"); [contradiction | reflexivity].
  - simpl. pose proof (toggle_thread_idx_lt procs lines s Hne Hlt) as H.
    split; [exact H|].
    destruct (nth_error procs _) eqn:E; [eauto|].
    apply nth_error_None in E. lia.
Qed.

(** ** Resampler lengths *)

Lemma ceil_third : forall n : nat,
  (n / 3 + (if n mod 3 =? 0 then 0 else 1) = (n + 2) / 3)%nat.
Proof.
  intros n.
  pose proof (Nat.div_mod n 3 ltac:(lia)) as Hd.
  pose proof (Nat.mod_upper_bound n 3 ltac:(lia)) as Hm.
  destruct (n mod 3) as [|[|[|k]]] eqn:E; cbn [Nat.eqb]; try lia.
  - apply (Nat.div_unique _ _ _ 2); lia.
  - apply (Nat.div_unique _ _ _ 0); lia.
  - apply (Nat.div_unique _ _ _ 1); lia.
Qed.

Lemma resample_down_length : forall fir x,
  length (Resample.resample_poly fir x 1 3) = ((length x + 2) / 3)%nat.
Proof.
  intros fir x. unfold Resample.resample_poly, Resample.out_len. simpl.
  rewrite length_map, length_seq, Nat.mul_1_r. apply ceil_third.
Qed.

Lemma resample_up_length : forall fir x,
  length (Resample.resample_poly fir x 3 1) = (3 * length x)%nat.
Proof.
  intros fir x. unfold Resample.resample_poly, Resample.out_len. cbv zeta.
  change (Nat.gcd 3 1) with 1%nat. change (3 / 1)%nat with 3%nat.
  change (1 / 1)%nat with 1%nat. cbn [Nat.eqb andb].
  rewrite length_map, length_seq, Nat.div_1_r, Nat.mod_1_r. cbn [Nat.eqb]. lia.
Qed.

Lemma max_abs_ok : forall xs, xs <> [] -> exists m, max_abs xs = Ok m.
Proof. intros [|x r] H; [congruence | eexists; reflexivity]. Qed.

Lemma max_abs_ok_nonempty : forall xs m, max_abs xs = Ok m -> xs <> [].
Proof. intros [|x r] m H; [discriminate | congruence]. Qed.

(** C8 (as stated, refuted): a 4-sample block downsamples to
    ceil(4/3) = 2 samples, whereas round(4/3) = 1. *)
Lemma downsample_length_counterexample :
  match Resample.downsample_48k_to_16k (fun _ _ _ _ => 0) [1; 0; 0; 0] with
  | Ok y => length y = 2%nat /\ Resample.round_third 4 = 1%nat
  | Raise _ => False
  end.
Proof. vm_compute. split; reflexivity. Qed.

(** C8 (amended): for a non-empty block of n samples the downsampler
    returns ceil(n/3) samples and the upsampler returns 3n samples. *)
Theorem resample_lengths :
  forall fir x,
    x <> [] ->
    (exists y, Resample.downsample_48k_to_16k fir x = Ok y /\
               length y = ((length x + 2) / 3)%nat) /\
    length (Resample.upsample_16k_to_48k fir x) = (3 * length x)%nat.
Proof.
  intros fir x Hx. split; [|apply resample_up_length].
  unfold Resample.downsample_48k_to_16k.
  destruct (max_abs_ok x Hx) as [il Hil]. rewrite Hil.
  assert (Hy : Resample.resample_poly fir x 1 3 <> []).
  { intro E. pose proof (resample_down_length fir x) as L. rewrite E in L.
    destruct x as [|a r]; [congruence|].
    assert (1 <= (length (a :: r) + 2) / 3)%nat
      by (apply Nat.div_le_lower_bound; simpl; lia).
    simpl length in *. lia. }
  destruct (max_abs_ok _ Hy) as [ol Hol]. rewrite Hol.
  destruct (qlt eps6 ol && qlt eps6 il); eexists; split; try reflexivity;
    rewrite ?length_map; apply resample_down_length.
Qed.

(** An input of the shape the capture callback delivers (one 20 ms block
    of 960 samples) gives 320 samples at 16 kHz. *)
Lemma resample_lengths_witness :
  repeat (1 # 2) 960 <> [] /\
  length (Resample.upsample_16k_to_48k (fun _ _ _ _ => 0) (repeat (1 # 2) 960))
  = (3 * 960)%nat.
Proof.
  assert (H : repeat (1 # 2) 960 <> []) by discriminate.
  split; [exact H|].
  pose proof (resample_lengths (fun _ _ _ _ => 0) _ H) as [_ U].
  rewrite U. rewrite repeat_length. reflexivity.
Defined.

(** ** AI denoiser output range *)

Lemma qlt_true : forall a b, qlt a b = true -> a < b.
Proof.
  unfold qlt. intros a b H. apply Qnot_le_lt. intro Hle.
  apply Qle_bool_iff in Hle. rewrite Hle in H. discriminate.
Qed.

Lemma qlt_false : forall a b, qlt a b = false -> b <= a.
Proof.
  unfold qlt. intros a b H. apply Qle_bool_iff.
  destruct (Qle_bool b a); [reflexivity | discriminate].
Qed.

Lemma Qmax_ge_l : forall a b, a <= Qmax a b.
Proof. intros a b. destruct (Q.max_spec a b) as [[? ->]|[? ->]]; lra. Qed.

Lemma Qmax_ge_r : forall a b, b <= Qmax a b.
Proof. intros a b. destruct (Q.max_spec a b) as [[? ->]|[? ->]]; lra. Qed.

Lemma fold_max_bound : forall r acc,
  acc <= fold_left (fun m y => Qmax m (Qabs y)) r acc /\
  Forall (fun y => Qabs y <= fold_left (fun m y => Qmax m (Qabs y)) r acc) r.
Proof.
  induction r as [|y r IH]; intros acc; simpl.
  - split; [lra | constructor].
  - destruct (IH (Qmax acc (Qabs y))) as [H1 H2]. split.
    + eapply Qle_trans; [apply Qmax_ge_l | exact H1].
    + constructor; [|exact H2].
      eapply Qle_trans; [apply Qmax_ge_r | exact H1].
Qed.

(** Every sample is bounded in magnitude by [np.abs(x).max()], which is
    non-negative. *)
Lemma max_abs_bound : forall xs m,
  max_abs xs = Ok m -> 0 <= m /\ Forall (fun y => Qabs y <= m) xs.
Proof.
  intros [|x r] m H; [discriminate|]. simpl in H. injection H as <-.
  destruct (fold_max_bound r (Qabs x)) as [H1 H2]. split.
  - eapply Qle_trans; [apply Qabs_nonneg | exact H1].
  - constructor; assumption.
Qed.

Lemma clip_unit : forall x, -1 <= clip x (-1) 1 <= 1.
Proof.
  intros x. unfold clip.
  destruct (Q.max_spec x (-1)) as [[? ->]|[? ->]].
  - destruct (Q.min_spec (-1) 1) as [[? ->]|[? ->]]; lra.
  - destruct (Q.min_spec x 1) as [[? ->]|[? ->]]; lra.
Qed.

Lemma scale_unit : forall s f, -1 <= s <= 1 -> 0 <= f <= 1 -> -1 <= s * f <= 1.
Proof. intros s f [H1 H2] [H3 H4]. split; nra. Qed.

(** C9: whenever [AIDenoiserProcessor.process] returns a frame, each of its
    samples lies in [-1, 1], whatever the model outputs. *)
Theorem ai_output_in_range :
  forall denoiser audio out,
    Processors.ai_process denoiser audio = Ok out ->
    Forall (fun s => -1 <= s <= 1) out.
Proof.
  intros den audio out H. unfold Processors.ai_process in H.
  destruct (max_abs audio) as [ip|e] eqn:Eip; [|discriminate].
  destruct (den _) as [onp|e]; [|discriminate].
  destruct (length onp =? 1)%nat; [discriminate|].
  destruct (max_abs onp) as [op|e] eqn:Eop; [|discriminate].
  injection H as <-.
  destruct (max_abs_bound _ _ Eip) as [Hip _].
  destruct (max_abs_bound _ _ Eop) as [_ Hop].
  assert (H1 : Forall (fun s => -1 <= s <= 1)
                 (if qlt 1 op
                  then map (fun s => clip (s / (op + eps8)) (-1) 1) onp
                  else onp)).
  { destruct (qlt 1 op) eqn:E.
    - apply Forall_map. apply Forall_forall. intros; apply clip_unit.
    - apply qlt_false in E. eapply Forall_impl; [|exact Hop].
      intros s Hs. assert (Hs1 : Qabs s <= 1) by (simpl in Hs; lra).
      apply Qabs_Qle_condition in Hs1. lra. }
  destruct (qlt eps6 ip) eqn:E; [|exact H1].
  apply Forall_map. eapply Forall_impl; [|exact H1].
  intros s Hs. apply scale_unit; [exact Hs|].
  apply qlt_true in E. unfold eps6 in E.
  destruct (Q.min_spec (ip * (105 # 100)) 1) as [[? ->]|[? ->]]; lra.
Qed.

(** The model output [3x] peaks above full scale and is renormalized. *)
Lemma ai_output_in_range_witness :
  exists out,
    Processors.ai_process (fun x => Ok (map (fun s => 3 * s) x)) [1 # 2; -1 # 4]
    = Ok out /\ Forall (fun s => -1 <= s <= 1) out.
Proof.
  eexists. split.
  - cbv. reflexivity.
  - apply (ai_output_in_range (fun x => Ok (map (fun s => 3 * s) x)) [1 # 2; -1 # 4]).
    cbv. reflexivity.
Defined.

Lemma toggle_index_in_range_witness :
  Duplex.current_idx
    (Duplex.toggle_body [Processors.Bypass; Processors.AIDenoiser "Light-32-Depth4"]
       (Duplex.init 5 0) "") = 1%nat /\
  (Duplex.current_idx
     (Duplex.toggle_thread [Processors.Bypass; Processors.AIDenoiser "Light-32-Depth4"]
        (Duplex.init 5 0) [""; ""; ""; "q"]%string) < 2)%nat.
Proof.
  destruct (toggle_index_in_range
              [Processors.Bypass; Processors.AIDenoiser "Light-32-Depth4"]
              (Duplex.init 5 0) [""; ""; ""; "q"]%string) as [H1 [H2 _]].
  - discriminate.
  - simpl. lia.
  - split; [apply H1; discriminate | exact H2].
Defined.

(** ** Bounded frame queues *)

Lemma put_nowait_bound : forall cap q x q',
  (0 < cap)%nat -> (length q <= cap)%nat ->
  Duplex.put_nowait cap q x = Ok q' -> (length q' <= cap)%nat.
Proof.
  unfold Duplex.put_nowait. intros cap q x q' Hc Hl H.
  destruct ((0 <? cap) && (cap <=? length q))%nat eqn:E; [discriminate|].
  injection H as <-. rewrite length_app. simpl.
  apply andb_false_iff in E as [E|E].
  - apply Nat.ltb_ge in E. lia.
  - apply Nat.leb_gt in E. lia.
Qed.

Lemma mic_callback_bound : forall s d s',
  (0 < Duplex.buffer_size s)%nat ->
  (length (Duplex.send_queue s) <= Duplex.buffer_size s)%nat ->
  Duplex.mic_callback s d = Ok s' ->
  Duplex.buffer_size s' = Duplex.buffer_size s /\
  (length (Duplex.send_queue s') <= Duplex.buffer_size s)%nat.
Proof.
  intros s d s' Hc Hl H. unfold Duplex.mic_callback in H.
  destruct (max_abs _); [|discriminate].
  destruct (Duplex.put_nowait _ _ _) as [q|e] eqn:E.
  - injection H as <-. split; [reflexivity|].
    exact (put_nowait_bound _ _ _ _ Hc Hl E).
  - destruct e; try discriminate. injection H as <-. auto.
Qed.

Lemma capture_run_bound : forall evs s,
  (0 < Duplex.buffer_size s)%nat ->
  (length (Duplex.send_queue s) <= Duplex.buffer_size s)%nat ->
  Duplex.buffer_size (Duplex.capture_run s evs) = Duplex.buffer_size s /\
  (length (Duplex.send_queue (Duplex.capture_run s evs)) <= Duplex.buffer_size s)%nat.
Proof.
  induction evs as [|[d|] rest IH]; intros s Hc Hl; simpl; [auto| |].
  - destruct (Duplex.mic_callback s d) as [s'|e] eqn:E; [|apply IH; assumption].
    destruct (mic_callback_bound s d s' Hc Hl E) as [Hb Hl'].
    destruct (IH s') as [H1 H2]; [lia | lia | ]. lia.
  - destruct (Duplex.send_queue s) as [|x q] eqn:Eq; simpl.
    + apply IH; [exact Hc | rewrite Eq; exact Hl].
    + simpl in Hl.
      destruct (IH (Duplex.set_send_queue q s)) as [H1 H2]; simpl; [exact Hc | lia |].
      change (Duplex.buffer_size (Duplex.set_send_queue q s))
        with (Duplex.buffer_size s) in H1, H2.
      split; assumption.
Qed.

(** C6: for a bounded queue ([maxsize > 0]): [put(block=False)] returns at
    once; on a full queue it raises [queue.Full] and the queue is unchanged,
    which [mic_callback] swallows (the newest block is dropped); otherwise the
    block is appended; and after any sequence of callbacks and [get]s the
    capture queue never holds more than [buffer_size] frames. *)
Theorem capture_queue_bounded :
  forall s,
    (0 < Duplex.buffer_size s)%nat ->
    (length (Duplex.send_queue s) <= Duplex.buffer_size s)%nat ->
    (forall cap q x, (0 < cap)%nat -> (length q <= cap)%nat ->
       match Duplex.put_nowait cap q x with
       | Ok q' => q' = q ++ [x] /\ (length q' <= cap)%nat
       | Raise e => e = QueueFull /\ length q = cap
       end) /\
    (forall d, d <> [] ->
       Duplex.mic_callback s d =
       Ok (if (Duplex.buffer_size s <=? length (Duplex.send_queue s))%nat then s
           else Duplex.set_send_queue (Duplex.send_queue s ++ [Duplex.to_mono d]) s)) /\
    (forall evs,
       (length (Duplex.send_queue (Duplex.capture_run s evs)) <= Duplex.buffer_size s)%nat).
Proof.
  intros s Hc Hl. split; [|split].
  - intros cap q x Hc' Hl'.
    destruct (Duplex.put_nowait cap q x) as [q'|e] eqn:E.
    + split; [|exact (put_nowait_bound _ _ _ _ Hc' Hl' E)].
      unfold Duplex.put_nowait in E.
      destruct ((0 <? cap) && (cap <=? length q))%nat; [discriminate|].
      injection E as <-. reflexivity.
    + unfold Duplex.put_nowait in E.
      destruct ((0 <? cap) && (cap <=? length q))%nat eqn:E2; [|discriminate].
      injection E as <-. split; [reflexivity|].
      apply andb_true_iff in E2 as [_ E2]. apply Nat.leb_le in E2. lia.
  - intros [|[l r] d] Hd; [congruence|].
    unfold Duplex.mic_callback, Duplex.put_nowait. cbn [Duplex.to_mono map max_abs].
    apply Nat.ltb_lt in Hc. rewrite Hc. simpl andb.
    destruct (Duplex.buffer_size s <=? length (Duplex.send_queue s))%nat; reflexivity.
  - intros evs. apply capture_run_bound; assumption.
Qed.

Lemma capture_queue_bounded_witness :
  (length (Duplex.send_queue
     (Duplex.capture_run (Duplex.init 2 0)
        [Duplex.MicBlock [(1%Q, 1%Q)]; Duplex.MicBlock [(1%Q, 0%Q)];
         Duplex.MicBlock [(0%Q, 1%Q)]; Duplex.MicBlock [(1%Q, 1%Q)]])) <= 2)%nat.
Proof.
  destruct (capture_queue_bounded (Duplex.init 2 0)) as [_ [_ H]].
  - simpl. lia.
  - simpl. lia.
  - apply H.
Defined.

(** ** Encode failure on the send side *)

(** C3 (as stated, refuted): when the encoder raises, [AudioComm.send]
    still puts the empty packet on the wire and reports success. *)
Lemma empty_packet_sent_counterexample :
  Comm.send (fun _ _ => Raise RuntimeError) (fun _ => Ok tt) [] [0] = ([[]], true).
Proof. reflexivity. Qed.

(** C3 (amended): when the encoder raises, [OpusCodec.encode] returns the
    empty packet, and [AudioComm.send] hands it to [sendto] unchecked: an
    empty datagram is sent and [True] is returned (no fatal error). *)
Theorem encode_failure_sends_empty :
  forall opus_encode sendto wire audio e,
    opus_encode (Codec.to_pcm audio) 320%nat = Raise e ->
    sendto [] = Ok tt ->
    Codec.encode opus_encode 320 audio = [] /\
    Comm.send opus_encode sendto wire audio = (wire ++ [[]], true).
Proof.
  intros enc sendto wire audio e He Hs.
  assert (Henc : Codec.encode enc 320 audio = []).
  { unfold Codec.encode. rewrite He. reflexivity. }
  split; [exact Henc|].
  unfold Comm.send. rewrite comm_frame_size_320, Henc, Hs. reflexivity.
Qed.

Lemma encode_failure_sends_empty_witness :
  Codec.encode (fun _ _ => Raise RuntimeError) 320 [1 # 2; -1 # 2] = [] /\
  Comm.send (fun _ _ => Raise RuntimeError) (fun _ => Ok tt) [] [1 # 2; -1 # 2]
  = ([] ++ [[]], true).
Proof.
  apply (encode_failure_sends_empty (fun _ _ => Raise RuntimeError) (fun _ => Ok tt)
           [] [1 # 2; -1 # 2] RuntimeError); reflexivity.
Defined.

(** ** Processor load failure at startup *)

(** C5 (as stated, refuted): with the default config ([enable_ai] absent,
    i.e. True) and a model that fails to load, startup goes on with Bypass
    only. *)
Lemma ai_load_failure_counterexample :
  Processors.main_startup (fun _ => Raise RuntimeError) (Processors.mk_config None None None)
  = Ok [Processors.Bypass].
Proof. reflexivity. Qed.

(** C5 (amended): when the AI denoiser is enabled and its loading raises,
    [main] catches the exception, prints a warning and starts the pipeline
    with Bypass (plus ClassicalFilters when enabled). *)
Theorem ai_load_failure_continues :
  forall load_ai cfg e,
    Processors.get (Processors.enable_ai cfg) true = true ->
    load_ai (Processors.get (Processors.ai_model cfg) "Light-32-Depth4"%string) = Raise e ->
    Processors.main_startup load_ai cfg =
    Ok ([Processors.Bypass] ++
        if Processors.get (Processors.enable_classical cfg) false
        then [Processors.ClassicalFilters] else []).
Proof.
  intros load cfg e Hen Hl.
  unfold Processors.main_startup, Processors.main_processors.
  rewrite Hen, Hl.
  destruct (Processors.get (Processors.enable_classical cfg) false); reflexivity.
Qed.

Lemma ai_load_failure_continues_witness :
  Processors.main_startup (fun _ => Raise RuntimeError)
    (Processors.mk_config (Some true) (Some "Light-32-Depth4"%string) (Some true))
  = Ok [Processors.Bypass; Processors.ClassicalFilters].
Proof.
  apply (ai_load_failure_continues (fun _ => Raise RuntimeError)
           (Processors.mk_config (Some true) (Some "Light-32-Depth4"%string) (Some true))
           RuntimeError); reflexivity.
Defined.

(** ** Pipeline stages *)

Lemma downsample_ok_peak : forall fir x y,
  Resample.downsample_48k_to_16k fir x = Ok y -> exists m, max_abs y = Ok m.
Proof.
  intros fir x y H. unfold Resample.downsample_48k_to_16k in H.
  destruct (max_abs x) as [il|]; [|discriminate].
  destruct (max_abs (Resample.resample_poly fir x 1 3)) as [ol|] eqn:E; [|discriminate].
  apply max_abs_ok_nonempty in E.
  destruct (qlt eps6 ol && qlt eps6 il); injection H as <-; apply max_abs_ok.
  - intro Hn. apply map_eq_nil in Hn. contradiction.
  - exact E.
Qed.

(** [AudioComm.send] unfolded into its two calls agrees with [AudioComm.send]. *)
Lemma comm_send_refines : forall opus_encode sendto a s,
  let '(_, s', r) := Duplex.comm_send opus_encode sendto a s in
  (Duplex.wire s', r) =
  (let '(w, ok) := Comm.send opus_encode sendto (Duplex.wire s) a in (w, Ok ok)).
Proof.
  intros enc sendto a s. unfold Duplex.comm_send, Duplex.bind, Duplex.call, Comm.send.
  destruct (sendto _); reflexivity.
Qed.

(** C2 (as stated, refuted): with the AI denoiser selected
    ([current_idx = 1]) the send loop still calls no processor. *)
Lemma send_pipeline_counterexample :
  let '(tr, _, _) :=
    Duplex.send_body (fun _ _ _ _ => 0) (fun _ _ => Ok [Byte.x01]) (fun _ => Ok tt)
      (Duplex.set_send_queue [[1; 1; 1]] (Duplex.init 5 1)) in
  tr = [Duplex.Dequeue; Duplex.Downsample; Duplex.Encode; Duplex.Send] /\
  ~ In Duplex.Process tr.
Proof.
  vm_compute. split; [reflexivity|]. intros [H|[H|[H|[H|[]]]]]; discriminate.
Qed.

(** C2 (amended): the send loop applies dequeue, downsample, encode and send,
    with no processor stage; the receive loop applies receive (with decode),
    then the selected processor only when [current_idx > 0], then upsample and
    enqueue. *)
Theorem pipeline_stages :
  forall fir opus_encode opus_decode sendto procs run_processor,
  (forall s x rest a16,
     Duplex.send_queue s = x :: rest ->
     Resample.downsample_48k_to_16k fir x = Ok a16 ->
     let '(tr, s', _) := Duplex.send_body fir opus_encode sendto s in
     tr = [Duplex.Dequeue; Duplex.Downsample; Duplex.Encode; Duplex.Send] /\
     (sendto (Codec.encode opus_encode 320 a16) = Ok tt ->
      Duplex.wire s' = Duplex.wire s ++ [Codec.encode opus_encode 320 a16])) /\
  (forall s d rest a',
     Duplex.net s = Comm.Datagram d :: rest ->
     (Duplex.current_idx s = 0%nat /\ a' = Codec.decode opus_decode 320 d \/
      (0 < Duplex.current_idx s)%nat /\
      exists p, nth_error procs (Duplex.current_idx s) = Some p /\
                run_processor p (Codec.decode opus_decode 320 d) = Ok a') ->
     a' <> [] ->
     let '(tr, _, _) := Duplex.recv_body fir opus_decode procs run_processor s in
     tr = [Duplex.Receive; Duplex.Decode] ++
          (if (0 <? Duplex.current_idx s)%nat then [Duplex.Process] else []) ++
          [Duplex.Upsample; Duplex.Enqueue]).
Proof.
  intros fir enc dec sendto procs runp. split.
  - intros s x rest a16 Hq Hd.
    destruct (downsample_ok_peak _ _ _ Hd) as [m Hm].
    unfold Duplex.send_body, Duplex.comm_send, Duplex.dequeue_send, Duplex.get_nowait,
      Duplex.call, Duplex.pure, Duplex.modify, Duplex.ret, Duplex.try_except, Duplex.bind.
    rewrite Hq, Hd, Hm, comm_frame_size_320. cbv beta iota zeta.
    destruct (sendto (Codec.encode enc 320 a16)) as [u|e] eqn:Hs; simpl.
    + split; [reflexivity|]. intros _. reflexivity.
    + split; [reflexivity|]. congruence.
  - intros s d rest a' Hn Hp Ha.
    destruct (max_abs_ok a' Ha) as [m Hm].
    unfold Duplex.recv_body, Duplex.comm_receive, Duplex.process_current,
      Duplex.enqueue_recv, Duplex.call, Duplex.pure, Duplex.modify, Duplex.ret,
      Duplex.try_except, Duplex.bind.
    rewrite Hn. unfold Comm.receive, Comm.receive_try. rewrite comm_frame_size_320.
    cbv beta iota zeta. unfold Duplex.set_net_comm. cbn [Duplex.current_idx].
    destruct Hp as [[Hi ->]|[Hi [p [Hnth Hr]]]].
    + rewrite Hi. cbv beta iota zeta. cbn [Nat.ltb Nat.leb]. rewrite Hm.
      destruct (Duplex.put_nowait _ _ _); reflexivity.
    + assert (Hb : (0 <? Duplex.current_idx s)%nat = true) by (apply Nat.ltb_lt; exact Hi).
      rewrite Hb, Hnth, Hr. cbv beta iota zeta. rewrite Hm.
      destruct (Duplex.put_nowait _ _ _); reflexivity.
Qed.

Lemma pipeline_stages_witness :
  (let '(tr, _, _) :=
     Duplex.send_body (fun _ _ _ _ => 0) (fun _ _ => Ok [Byte.x01]) (fun _ => Ok tt)
       (Duplex.set_send_queue [[1; 1; 1]] (Duplex.init 5 1)) in
   tr = [Duplex.Dequeue; Duplex.Downsample; Duplex.Encode; Duplex.Send]) /\
  (let '(tr, _, _) :=
     Duplex.recv_body (fun _ _ _ _ => 0) (fun _ _ => Ok [100; -100]%Z)
       [Processors.Bypass; Processors.ClassicalFilters] (Processors.run (fun x => Ok x))
       (Duplex.set_net_comm [Comm.Datagram [Byte.x01]] (Comm.mk_counters 0 0)
          (Duplex.init 5 1)) in
   tr = [Duplex.Receive; Duplex.Decode; Duplex.Process; Duplex.Upsample; Duplex.Enqueue]).
Proof.
  destruct (pipeline_stages (fun _ _ _ _ => 0) (fun _ _ => Ok [Byte.x01])
              (fun _ _ => Ok [100; -100]%Z) (fun _ => Ok tt)
              [Processors.Bypass; Processors.ClassicalFilters]
              (Processors.run (fun x => Ok x))) as [Hs Hr].
  split.
  - pose proof (Hs (Duplex.set_send_queue [[1; 1; 1]] (Duplex.init 5 1)) [1; 1; 1] [] [0]
                  eq_refl eq_refl) as H.
    destruct (Duplex.send_body _ _ _ _) as [[tr s'] r]. apply H.
  - pose proof (Hr (Duplex.set_net_comm [Comm.Datagram [Byte.x01]] (Comm.mk_counters 0 0)
                      (Duplex.init 5 1))
                  [Byte.x01] [] (Codec.decode (fun _ _ => Ok [100; -100]%Z) 320 [Byte.x01])
                  eq_refl) as H.
    destruct (Duplex.recv_body _ _ _ _ _) as [[tr s'] r]. apply H.
    + right. split; [simpl; lia|]. exists Processors.ClassicalFilters. split; reflexivity.
    + discriminate.
Defined.

(** ** Processor fault on the receive side *)

(** C4 (code defect): [AIDenoiserProcessor.process] has no fallback, so an
    exception of the model reaches [recv_thread], whose generic handler drops
    the frame: nothing is enqueued for playback, [packets_received] does not
    move, and the loop goes on. The unprocessed frame is not emitted. *)
Theorem recv_processor_fault_drops_frame :
  forall fir opus_decode procs denoiser s d rest name e,
    Duplex.net s = Comm.Datagram d :: rest ->
    (0 < Duplex.current_idx s)%nat ->
    nth_error procs (Duplex.current_idx s) = Some (Processors.AIDenoiser name) ->
    Processors.ai_process denoiser (Codec.decode opus_decode 320 d) = Raise e ->
    let '(tr, s', r) :=
      Duplex.recv_body fir opus_decode procs (Processors.run denoiser) s in
    tr = [Duplex.Receive; Duplex.Decode; Duplex.Process] /\ r = Ok tt /\
    Duplex.recv_queue s' = Duplex.recv_queue s /\
    Duplex.packets_received s' = Duplex.packets_received s /\
    Duplex.running s' = Duplex.running s.
Proof.
  intros fir dec procs den s d rest name e Hn Hi Hnth He.
  unfold Duplex.recv_body, Duplex.comm_receive, Duplex.process_current,
    Duplex.enqueue_recv, Duplex.call, Duplex.pure, Duplex.modify, Duplex.ret,
    Duplex.try_except, Duplex.bind.
  rewrite Hn. unfold Comm.receive, Comm.receive_try. rewrite comm_frame_size_320.
  cbv beta iota zeta. unfold Duplex.set_net_comm. cbn [Duplex.current_idx].
  assert (Hb : (0 <? Duplex.current_idx s)%nat = true) by (apply Nat.ltb_lt; exact Hi).
  rewrite Hb, Hnth. cbn [Processors.run]. rewrite He.
  cbv beta iota zeta. simpl. repeat split; reflexivity.
Qed.

Lemma recv_processor_fault_drops_frame_witness :
  let '(tr, s', r) :=
    Duplex.recv_body (fun _ _ _ _ => 0) (fun _ _ => Ok [100; -100]%Z)
      [Processors.Bypass; Processors.AIDenoiser "Light-32-Depth4"]
      (Processors.run (fun _ => Raise RuntimeError))
      (Duplex.set_net_comm [Comm.Datagram [Byte.x01]] (Comm.mk_counters 0 0)
         (Duplex.init 5 1)) in
  tr = [Duplex.Receive; Duplex.Decode; Duplex.Process] /\ r = Ok tt /\
  Duplex.recv_queue s' = [] /\ Duplex.packets_received s' = 0%nat /\
  Duplex.running s' = true.
Proof.
  exact (recv_processor_fault_drops_frame (fun _ _ _ _ => 0) (fun _ _ => Ok [100; -100]%Z)
           [Processors.Bypass; Processors.AIDenoiser "Light-32-Depth4"]
           (fun _ => Raise RuntimeError)
           (Duplex.set_net_comm [Comm.Datagram [Byte.x01]] (Comm.mk_counters 0 0)
              (Duplex.init 5 1))
           [Byte.x01] [] "Light-32-Depth4"%string RuntimeError
           eq_refl ltac:(simpl; lia) eq_refl ltac:(vm_compute; reflexivity)).
Defined.

(** * Further properties of the embedded code *)

(** ** OpusCodec: PCM quantisation *)

(** Truncating division [A / b] toward zero stays within one unit of the
    exact quotient and on the same side of zero, never farther from it. *)
Lemma quot_bounds : forall (A : Z) (b : positive),
  inject_Z (Z.quot A (Zpos b)) - 1 < A # b /\
  A # b < inject_Z (Z.quot A (Zpos b)) + 1 /\
  ((0 <= inject_Z (Z.quot A (Zpos b)) /\ inject_Z (Z.quot A (Zpos b)) <= A # b) \/
   (A # b <= inject_Z (Z.quot A (Zpos b)) /\ inject_Z (Z.quot A (Zpos b)) <= 0)).
Proof.
  intros A b.
  pose proof (Z.quot_rem' A (Zpos b)) as Hq.
  pose proof (Z.rem_bound_abs A (Zpos b) ltac:(discriminate)) as Hr.
  set (z := Z.quot A (Zpos b)) in *. set (r := Z.rem A (Zpos b)) in *.
  simpl in Hr.
  unfold Qlt, Qle, Qminus, Qplus, Qopp, inject_Z; simpl.
  destruct (Z.le_gt_cases 0 A) as [HA|HA].
  - pose proof (Z.rem_nonneg A (Zpos b) ltac:(discriminate) HA) as H0. fold r in H0.
    rewrite Z.abs_eq in Hr by exact H0.
    assert (0 <= z)%Z by nia.
    split; [nia | split; [nia | left; split; nia]].
  - pose proof (Z.rem_nonpos A (Zpos b) ltac:(discriminate) ltac:(lia)) as H0. fold r in H0.
    rewrite Z.abs_neq in Hr by exact H0.
    assert (z <= 0)%Z by nia.
    split; [nia | split; [nia | right; split; nia]].
Qed.

Lemma to_int16_bounds : forall s,
  inject_Z (Codec.to_int16 s) - 1 < s * 32767 /\
  s * 32767 < inject_Z (Codec.to_int16 s) + 1 /\
  ((0 <= inject_Z (Codec.to_int16 s) /\ inject_Z (Codec.to_int16 s) <= s * 32767) \/
   (s * 32767 <= inject_Z (Codec.to_int16 s) /\ inject_Z (Codec.to_int16 s) <= 0)).
Proof.
  intros s. unfold Codec.to_int16.
  destruct (s * 32767) as [A b] eqn:E. cbn [Qnum Qden].
  apply quot_bounds.
Qed.

(** X1: [OpusCodec.encode] quantises every sample of [-1, 1] to an int16
    value in [-32767, 32767]: the cast never overflows. *)
Theorem to_pcm_int16_range : forall audio,
  Forall (fun s => -1 <= s <= 1) audio ->
  Forall (fun z => (-32767 <= z <= 32767)%Z) (Codec.to_pcm audio).
Proof.
  intros audio H. unfold Codec.to_pcm. apply Forall_map.
  eapply Forall_impl; [| exact H]. intros s [H1 H2].
  destruct (to_int16_bounds s) as (Ha & Hb & Hc).
  set (t := inject_Z (Codec.to_int16 s)) in *.
  split; rewrite Zle_Qle; fold t; unfold inject_Z; destruct Hc; lra.
Qed.

Lemma to_pcm_int16_range_witness :
  Forall (fun s => -1 <= s <= 1) [1; -1; 1 # 3] /\
  Forall (fun z => (-32767 <= z <= 32767)%Z) (Codec.to_pcm [1; -1; 1 # 3]).
Proof.
  assert (H : Forall (fun s => -1 <= s <= 1) [1; -1; 1 # 3])
    by (repeat constructor; lra).
  split; [exact H | exact (to_pcm_int16_range [1; -1; 1 # 3] H)].
Defined.



(** X3: whatever packet it is given, [OpusCodec.decode] returns samples in
    [-32768/32767, 1], provided opuslib yields int16 PCM; on a decoding
    error it returns [frame_size] zeros. *)
Theorem decode_range : forall opus_decode fs p,
  (forall pcm, opus_decode p fs = Ok pcm ->
               Forall (fun z => (-32768 <= z <= 32767)%Z) pcm) ->
  Forall (fun y => -32768 # 32767 <= y <= 1) (Codec.decode opus_decode fs p) /\
  (forall e, opus_decode p fs = Raise e ->
             Codec.decode opus_decode fs p = zeros fs).
Proof.
  intros dec fs p H. unfold Codec.decode. split.
  - destruct (dec p fs) as [pcm|e] eqn:E.
    + specialize (H pcm eq_refl). unfold Codec.from_pcm. apply Forall_map.
      eapply Forall_impl; [| exact H]. intros z [H1 H2].
      rewrite Zle_Qle in H1, H2. set (t := inject_Z z) in *.
      unfold inject_Z in H1, H2.
      unfold Qdiv. change (/ 32767) with (1 # 32767). split; lra.
    + unfold zeros. apply Forall_forall. intros y Hy.
      apply repeat_spec in Hy. subst y. split; lra.
  - intros e E. rewrite E. reflexivity.
Qed.

Lemma decode_range_witness :
  Forall (fun y => -32768 # 32767 <= y <= 1)
    (Codec.decode (fun _ _ => Ok [-32768; 0; 32767]%Z) 3 [Byte.x00]) /\
  Forall (fun y => -32768 # 32767 <= y <= 1)
    (Codec.decode (fun _ _ => Raise RuntimeError) 3 [Byte.x00]).
Proof.
  split.
  - apply (decode_range (fun _ _ => Ok [-32768; 0; 32767]%Z) 3 [Byte.x00]).
    intros pcm E. injection E as <-. repeat constructor; lia.
  - apply (decode_range (fun _ _ => Raise RuntimeError) 3 [Byte.x00]).
    intros pcm E. discriminate E.
Defined.

(** ** AudioComm.receive: its counters *)

(** X4: over any sequence of receive outcomes, [recv_count] grows by the
    number of datagrams and [timeout_count] by the number of timeouts;
    other socket errors count in neither. *)
Theorem receive_counters : forall opus_decode os c,
  let c' := fold_left (fun c o => fst (Comm.receive opus_decode c o)) os c in
  Comm.recv_count c' =
    (Comm.recv_count c +
     length (filter (fun o => match o with Comm.Datagram _ => true | _ => false end) os))%nat /\
  Comm.timeout_count c' =
    (Comm.timeout_count c +
     length (filter (fun o => match o with Comm.RecvTimeout => true | _ => false end) os))%nat.
Proof.
  intros dec os. induction os as [|o os IH]; intros c; cbn [fold_left filter].
  - cbn [length]. lia.
  - destruct (IH (fst (Comm.receive dec c o))) as [H1 H2].
    destruct o as [d| |]; cbn [length] in *; rewrite H1, H2; simpl; lia.
Qed.

(** ** AudioComm.downsample_48k_to_16k: level matching *)

Lemma clip_bounds : forall x lo hi, lo <= hi -> lo <= clip x lo hi <= hi.
Proof.
  intros x lo hi H. unfold clip.
  destruct (Q.max_spec x lo) as [[? ->]|[? ->]].
  - destruct (Q.min_spec lo hi) as [[? ->]|[? ->]]; lra.
  - destruct (Q.min_spec x hi) as [[? ->]|[? ->]]; lra.
Qed.

(** X5: downsampling an empty block raises [ValueError]; any block it
    returns is the polyphase-resampled block, either unchanged or scaled
    by one gain between 1/2 and 2. *)
Theorem downsample_gain : forall fir x y,
  Resample.downsample_48k_to_16k fir [] = Raise ValueError /\
  (Resample.downsample_48k_to_16k fir x = Ok y ->
   y = Resample.resample_poly fir x 1 3 \/
   exists g, 1 # 2 <= g <= 2 /\
             y = map (fun s => s * g) (Resample.resample_poly fir x 1 3)).
Proof.
  intros fir x y. split; [reflexivity|].
  unfold Resample.downsample_48k_to_16k. intros H.
  destruct (max_abs x) as [il|e]; [|discriminate].
  destruct (max_abs (Resample.resample_poly fir x 1 3)) as [ol|e]; [|discriminate].
  destruct (qlt eps6 ol && qlt eps6 il); injection H as <-.
  - right. eexists. split; [apply clip_bounds; lra | reflexivity].
  - left. reflexivity.
Qed.

Lemma downsample_gain_witness :
  Resample.downsample_48k_to_16k (fun _ _ _ _ => 1 # 4) [] = Raise ValueError /\
  (Resample.resample_poly (fun _ _ _ _ => 1 # 4) [1; 1; 1] 1 3 = [1 # 4] /\
   Resample.downsample_48k_to_16k (fun _ _ _ _ => 1 # 4) [1; 1; 1] = Ok [2 # 4] /\
   ([2 # 4] = Resample.resample_poly (fun _ _ _ _ => 1 # 4) [1; 1; 1] 1 3 \/
    exists g, 1 # 2 <= g <= 2 /\
      [2 # 4] = map (fun s => s * g)
                  (Resample.resample_poly (fun _ _ _ _ => 1 # 4) [1; 1; 1] 1 3))).
Proof.
  assert (E : Resample.downsample_48k_to_16k (fun _ _ _ _ => 1 # 4) [1; 1; 1]
              = Ok [2 # 4]) by (vm_compute; reflexivity).
  destruct (downsample_gain (fun _ _ _ _ => 1 # 4) [1; 1; 1] [2 # 4]) as [H0 H1].
  split; [exact H0|]. split; [vm_compute; reflexivity|].
  split; [exact E | exact (H1 E)].
Defined.

(** ** AIDenoiserProcessor.process: level restoration and shape *)

Lemma renormalised_unit : forall onp op,
  max_abs onp = Ok op ->
  Forall (fun s => -1 <= s <= 1)
    (if qlt 1 op then map (fun s => clip (s / (op + eps8)) (-1) 1) onp else onp).
Proof.
  intros onp op Eop. destruct (max_abs_bound _ _ Eop) as [_ Hop].
  destruct (qlt 1 op) eqn:E.
  - apply Forall_map. apply Forall_forall. intros; apply clip_unit.
  - apply qlt_false in E. eapply Forall_impl; [|exact Hop].
    intros s Hs. cbv beta in Hs. assert (Hs1 : Qabs s <= 1) by lra.
    apply Qabs_Qle_condition in Hs1. lra.
Qed.

(** X6: when the input frame is not silent (peak [ip] above 1e-6), every
    output sample has magnitude at most [min(1.05 * ip, 1)]: the denoiser
    never returns a frame louder than 105% of its input peak. *)
Theorem ai_output_level : forall denoiser audio out ip,
  Processors.ai_process denoiser audio = Ok out ->
  max_abs audio = Ok ip -> eps6 < ip ->
  Forall (fun y => Qabs y <= Qmin (ip * (105 # 100)) 1) out.
Proof.
  intros den audio out ip H Eip Hip. unfold Processors.ai_process in H.
  rewrite Eip in H.
  destruct (den _) as [onp|e]; [|discriminate].
  destruct (length onp =? 1)%nat; [discriminate|].
  destruct (max_abs onp) as [op|e] eqn:Eop; [|discriminate].
  pose proof (renormalised_unit onp op Eop) as H1.
  assert (E : qlt eps6 ip = true).
  { unfold qlt. destruct (Qle_bool ip eps6) eqn:F; [|reflexivity].
    apply Qle_bool_iff in F. lra. }
  rewrite E in H. injection H as <-.
  apply Forall_map. eapply Forall_impl; [|exact H1].
  intros s Hs. rewrite Qabs_Qmult.
  assert (Hf : 0 <= Qmin (ip * (105 # 100)) 1).
  { unfold eps6 in Hip.
    destruct (Q.min_spec (ip * (105 # 100)) 1) as [[? ->]|[? ->]]; lra. }
  rewrite (Qabs_pos (Qmin _ _)) by exact Hf.
  assert (Hs1 : Qabs s <= 1) by (apply Qabs_Qle_condition; exact Hs).
  pose proof (Qabs_nonneg s). nra.
Qed.

Lemma ai_output_level_witness :
  exists out ip,
    Processors.ai_process (fun x => Ok (map (fun s => 3 * s) x)) [1 # 2; -1 # 4] = Ok out /\
    max_abs [1 # 2; -1 # 4] = Ok ip /\ eps6 < ip /\
    Forall (fun y => Qabs y <= Qmin (ip * (105 # 100)) 1) out.
Proof.
  eexists; eexists.
  split; [vm_compute; reflexivity|]. split; [vm_compute; reflexivity|].
  split; [unfold eps6; lra|].
  apply (ai_output_level (fun x => Ok (map (fun s => 3 * s) x)) [1 # 2; -1 # 4]).
  - vm_compute; reflexivity.
  - vm_compute; reflexivity.
  - unfold eps6; lra.
Defined.

(** X7: for a model that returns as many samples as it is given, the
    processor raises [ValueError] on an empty frame and [TypeError] on a
    one-sample frame (the squeezed output is 0-d), and returns a frame of
    the input's length otherwise. *)
Theorem ai_process_shape : forall denoiser audio,
  (forall x, exists o, denoiser x = Ok o /\ length o = length x) ->
  match audio with
  | [] => Processors.ai_process denoiser audio = Raise ValueError
  | [_] => Processors.ai_process denoiser audio = Raise TypeError
  | _ => exists out, Processors.ai_process denoiser audio = Ok out /\
                     length out = length audio
  end.
Proof.
  intros den audio Hden. unfold Processors.ai_process.
  destruct audio as [|a r]; [reflexivity|].
  cbn [max_abs].
  set (ip := fold_left (fun m y => Qmax m (Qabs y)) r (Qabs a)).
  match goal with |- context [den ?x] =>
    destruct (Hden x) as [o [Eo Lo]]; rewrite Eo;
    assert (Ln : length o = length (a :: r))
      by (rewrite Lo; destruct (qlt eps6 ip); [apply length_map | reflexivity])
  end.
  destruct r as [|b r].
  - rewrite Ln. reflexivity.
  - assert (E1 : (length o =? 1)%nat = false) by (rewrite Ln; reflexivity).
    rewrite E1.
    assert (Ho : o <> []) by (intro E; rewrite E in Ln; discriminate).
    destruct (max_abs_ok o Ho) as [op Eop]. rewrite Eop.
    eexists; split; [reflexivity|].
    destruct (qlt 1 op); destruct (qlt eps6 ip); rewrite ?length_map; exact Ln.
Qed.

Lemma ai_process_shape_witness :
  (forall x, exists o, (fun y : list Q => Ok (map (fun s => s / 2) y)) x = Ok o /\
                       length o = length x) /\
  (exists out,
     Processors.ai_process (fun y => Ok (map (fun s => s / 2) y)) [1 # 2; -1 # 4] = Ok out /\
     length out = length [1 # 2; -1 # 4]).
Proof.
  assert (H : forall x, exists o, (fun y : list Q => Ok (map (fun s => s / 2) y)) x = Ok o /\
                                  length o = length x)
    by (intros x; eexists; split; [reflexivity | apply length_map]).
  split; [exact H|].
  exact (ai_process_shape (fun y => Ok (map (fun s => s / 2) y)) [1 # 2; -1 # 4] H).
Defined.

(** X8: a near-silent frame (peak at most 1e-6) is handed to the model
    unnormalised, and a model output that does not exceed full scale is
    returned unchanged: no normalisation, no level restoration. *)
Theorem ai_silent_passthrough : forall denoiser audio ip o op,
  max_abs audio = Ok ip -> ip <= eps6 ->
  denoiser audio = Ok o -> length o <> 1%nat ->
  max_abs o = Ok op -> op <= 1 ->
  Processors.ai_process denoiser audio = Ok o.
Proof.
  intros den audio ip o op Eip Hip Eo Lo Eop Hop.
  unfold Processors.ai_process. rewrite Eip.
  assert (E1 : qlt eps6 ip = false)
    by (unfold qlt; apply Qle_bool_iff in Hip; rewrite Hip; reflexivity).
  rewrite E1, Eo.
  assert (E2 : (length o =? 1)%nat = false) by (apply Nat.eqb_neq; exact Lo).
  rewrite E2, Eop.
  assert (E3 : qlt 1 op = false)
    by (unfold qlt; apply Qle_bool_iff in Hop; rewrite Hop; reflexivity).
  rewrite E3. reflexivity.
Qed.

Lemma ai_silent_passthrough_witness :
  max_abs [0; 0; 0] = Ok 0 /\ 0 <= eps6 /\
  Processors.ai_process (fun x => Ok (map (fun s => s + (1 # 2)) x)) [0; 0; 0]
    = Ok [1 # 2; 1 # 2; 1 # 2].
Proof.
  split; [reflexivity|]. split; [unfold eps6; lra|].
  apply (ai_silent_passthrough (fun x => Ok (map (fun s => s + (1 # 2)) x)) [0; 0; 0] 0
           [1 # 2; 1 # 2; 1 # 2] (1 # 2)).
  - reflexivity.
  - unfold eps6; lra.
  - vm_compute; reflexivity.
  - discriminate.
  - vm_compute; reflexivity.
  - lra.
Defined.

(** ** main: the processor list *)

(** X9: whatever the config says and whether or not the AI model loads,
    [main] builds a list of one to three processors whose first entry is
    Bypass, so index 0 always selects the bypass path. *)
Theorem main_processors_shape : forall load_ai cfg,
  exists rest,
    Processors.main_processors load_ai cfg = Processors.Bypass :: rest /\
    (length rest <= 2)%nat.
Proof.
  intros load cfg. unfold Processors.main_processors.
  destruct (Processors.get (Processors.enable_ai cfg) true);
    [destruct (load _) as [p|e]|];
    destruct (Processors.get (Processors.enable_classical cfg) false);
    simpl; eexists; split; try reflexivity; simpl; lia.
Qed.

(** ** toggle_thread *)

(** X10: a "q" line stops the toggle thread ([running] becomes False) and
    no line after it has any effect. *)
Theorem toggle_quit_final : forall procs s ls rest,
  Duplex.toggle_thread procs s (ls ++ "q"%string :: rest) =
  Duplex.toggle_thread procs s (ls ++ ["q"%string]) /\
  Duplex.running (Duplex.toggle_thread procs s (ls ++ "q"%string :: rest)) = false.
Proof.
  intros procs s ls. revert s. induction ls as [|l ls IH]; intros s rest; simpl.
  - destruct (Duplex.running s) eqn:R; [|split; [reflexivity | exact R]].
    unfold Duplex.toggle_body. simpl. destruct rest; simpl; split; reflexivity.
  - destruct (Duplex.running s) eqn:R; [apply IH|].
    split; [reflexivity | exact R].
Qed.

(** X11: while the thread runs, k lines other than "q" advance the
    processor index by k modulo the number of processors (from an index
    in range), and the thread keeps running. *)
Theorem toggle_advances : forall procs lines s,
  Forall (fun l => l <> "q"%string) lines ->
  Duplex.running s = true -> (Duplex.current_idx s < length procs)%nat ->
  Duplex.current_idx (Duplex.toggle_thread procs s lines) =
    ((Duplex.current_idx s + length lines) mod length procs)%nat /\
  Duplex.running (Duplex.toggle_thread procs s lines) = true.
Proof.
  intros procs lines. induction lines as [|l ls IH]; intros s Hq Hr Hi; simpl.
  - rewrite Hr. rewrite Nat.add_0_r, Nat.mod_small by exact Hi. split; [reflexivity | exact Hr].
  - rewrite Hr. inversion Hq as [|? ? Hl Hls]; subst.
    unfold Duplex.toggle_body.
    assert (E : String.eqb l "q" = false) by (apply String.eqb_neq; exact Hl).
    rewrite E.
    assert (Hn : length procs <> 0%nat) by lia.
    destruct (IH (Duplex.set_current_idx ((Duplex.current_idx s + 1) mod length procs) s))
      as [H1 H2]; [exact Hls | exact Hr | apply Nat.mod_upper_bound; exact Hn |].
    split; [|exact H2]. rewrite H1. cbn [Duplex.current_idx Duplex.set_current_idx].
    rewrite Nat.Div0.add_mod_idemp_l. f_equal. lia.
Qed.

Lemma toggle_advances_witness :
  Duplex.current_idx
    (Duplex.toggle_thread [Processors.Bypass; Processors.AIDenoiser "Light-32-Depth4";
                           Processors.ClassicalFilters]
       (Duplex.init 5 2) [""; ""; ""; ""]%string) = 0%nat.
Proof.
  destruct (toggle_advances [Processors.Bypass; Processors.AIDenoiser "Light-32-Depth4";
                             Processors.ClassicalFilters] [""; ""; ""; ""]%string
              (Duplex.init 5 2)) as [H _].
  - repeat constructor; discriminate.
  - reflexivity.
  - simpl; lia.
  - rewrite H. reflexivity.
Defined.

(** ** speaker_callback *)

(** X12: with nothing to play the callback outputs [frames] silent stereo
    rows and leaves the state alone; otherwise it always consumes the head
    block of the playback queue (even when playback then raises), and a
    block of exactly [frames] samples is played on both channels. *)
Theorem speaker_callback_spec : forall s frames,
  (Duplex.recv_queue s = [] ->
   Duplex.speaker_callback s frames = (s, Ok (repeat (0, 0) frames))) /\
  (forall mono q, Duplex.recv_queue s = mono :: q ->
   fst (Duplex.speaker_callback s frames) = Duplex.set_recv_queue q s /\
   (length mono = frames -> frames <> 0%nat ->
    snd (Duplex.speaker_callback s frames) = Ok (map (fun x => (x, x)) mono))).
Proof.
  intros s frames. unfold Duplex.speaker_callback, Duplex.get_nowait.
  split; [intros E; rewrite E; reflexivity|].
  intros mono q E. rewrite E. cbv beta iota zeta.
  destruct mono as [|x r]; [simpl; split; [reflexivity | intros L; subst; congruence]|].
  cbn [max_abs]. split; [destruct (_ =? _)%nat; [| destruct (map _ (x :: r)) as [|? []]]; reflexivity|].
  intros L _. rewrite length_map, L, Nat.eqb_refl. reflexivity.
Qed.

Lemma speaker_callback_spec_witness :
  Duplex.speaker_callback (Duplex.set_recv_queue [[1 # 2; -1 # 2]] (Duplex.init 5 0)) 2
  = (Duplex.set_recv_queue [] (Duplex.set_recv_queue [[1 # 2; -1 # 2]] (Duplex.init 5 0)),
     Ok [(1 # 2, 1 # 2); (-1 # 2, -1 # 2)]).
Proof.
  destruct (speaker_callback_spec
              (Duplex.set_recv_queue [[1 # 2; -1 # 2]] (Duplex.init 5 0)) 2) as [_ H].
  destruct (H [1 # 2; -1 # 2] [] eq_refl) as [H1 H2].
  specialize (H2 eq_refl ltac:(discriminate)).
  destruct (Duplex.speaker_callback _ _) as [s' r]. cbn in H1, H2. rewrite H1, H2.
  reflexivity.
Defined.

(** ** recv_thread: the playback queue *)

Section FinalState.
Variable P : Duplex.duplex -> Prop.

Lemma pres_bind : forall A B (m : Duplex.M A) (k : A -> Duplex.M B),
  (forall s, P s -> P (Duplex.final m s)) ->
  (forall a s, P s -> P (Duplex.final (k a) s)) ->
  forall s, P s -> P (Duplex.final (Duplex.bind m k) s).
Proof.
  intros A B m k Hm Hk s Hs. specialize (Hm s Hs).
  unfold Duplex.final, Duplex.bind in *.
  destruct (m s) as [[l s'] [a|e]]; [|exact Hm].
  specialize (Hk a s' Hm). destruct (k a s') as [[l' s''] r]. exact Hk.
Qed.

Lemma pres_try : forall A (m : Duplex.M A) (h : exn -> Duplex.M A),
  (forall s, P s -> P (Duplex.final m s)) ->
  (forall e s, P s -> P (Duplex.final (h e) s)) ->
  forall s, P s -> P (Duplex.final (Duplex.try_except m h) s).
Proof.
  intros A m h Hm Hh s Hs. specialize (Hm s Hs).
  unfold Duplex.final, Duplex.try_except in *.
  destruct (m s) as [[l s'] [a|e]]; [exact Hm|].
  specialize (Hh e s' Hm). destruct (h e s') as [[l' s''] r]. exact Hh.
Qed.

Lemma pres_ret : forall A (a : A) s, P s -> P (Duplex.final (Duplex.ret a) s).
Proof. intros; assumption. Qed.

Lemma pres_call : forall A st (r : res A) s, P s -> P (Duplex.final (Duplex.call st r) s).
Proof. intros; assumption. Qed.

Lemma pres_pure : forall A (r : res A) s, P s -> P (Duplex.final (Duplex.pure r) s).
Proof. intros; assumption. Qed.

(** Every state [recv_body] can leave behind is reached from its start by
    consuming a receive outcome, appending to the playback queue with
    [put_nowait], and counting the packet. *)
Lemma recv_body_pres : forall fir opus_decode procs runp,
  (forall s n c, P s -> P (Duplex.set_net_comm n c s)) ->
  (forall s, P s -> P (Duplex.inc_received s)) ->
  (forall s x q, P s -> Duplex.put_nowait (Duplex.buffer_size s) (Duplex.recv_queue s) x = Ok q ->
                 P (Duplex.set_recv_queue q s)) ->
  forall s, P s -> P (Duplex.final (Duplex.recv_body fir opus_decode procs runp) s).
Proof.
  intros fir dec procs runp Hnet Hinc Hput.
  unfold Duplex.recv_body. apply pres_try; [| intros; apply pres_ret; assumption].
  apply pres_bind.
  { intros s Hs. unfold Duplex.final, Duplex.comm_receive.
    destruct (match Duplex.net s with [] => _ | _ => _ end) as [o rest].
    destruct (Comm.receive dec (Duplex.comm s) o) as [c' r]. apply Hnet; exact Hs. }
  intros a. apply pres_bind.
  { intros s Hs. unfold Duplex.final, Duplex.process_current, Duplex.ret.
    destruct (0 <? Duplex.current_idx s)%nat; [|exact Hs].
    destruct (nth_error procs (Duplex.current_idx s)); exact Hs. }
  intros a'. apply pres_bind; [apply pres_pure | intros _].
  apply pres_bind; [apply pres_call | intros a48].
  apply pres_bind.
  { intros s Hs. unfold Duplex.final, Duplex.enqueue_recv.
    destruct (Duplex.put_nowait _ _ _) as [q|e] eqn:E; [apply (Hput s a48 q Hs E) | exact Hs]. }
  intros _ s Hs. apply Hinc; exact Hs.
Qed.
End FinalState.

(** X13: with a bounded playback queue ([buffer_size > 0]) that starts
    within its bound, the queue never holds more than [buffer_size] blocks,
    whatever interleaving of receive-loop iterations ([None]) and speaker
    callbacks ([Some frames]) runs; [buffer_size] itself never changes. *)
Theorem recv_queue_bounded : forall fir opus_decode procs runp evs s,
  (0 < Duplex.buffer_size s)%nat ->
  (length (Duplex.recv_queue s) <= Duplex.buffer_size s)%nat ->
  let s' := fold_left (fun s (e : option nat) =>
                         match e with
                         | None => Duplex.final (Duplex.recv_body fir opus_decode procs runp) s
                         | Some frames => fst (Duplex.speaker_callback s frames)
                         end) evs s in
  Duplex.buffer_size s' = Duplex.buffer_size s /\
  (length (Duplex.recv_queue s') <= Duplex.buffer_size s)%nat.
Proof.
  intros fir dec procs runp evs. induction evs as [|e evs IH]; intros s Hc Hl; simpl.
  - split; [reflexivity | exact Hl].
  - set (s1 := match e with
               | None => Duplex.final (Duplex.recv_body fir dec procs runp) s
               | Some frames => fst (Duplex.speaker_callback s frames)
               end).
    assert (H1 : Duplex.buffer_size s1 = Duplex.buffer_size s /\
                 (length (Duplex.recv_queue s1) <= Duplex.buffer_size s)%nat).
    { subst s1. destruct e as [frames|].
      - unfold Duplex.speaker_callback, Duplex.get_nowait.
        destruct (Duplex.recv_queue s) as [|mono q] eqn:Eq; [split; [reflexivity | simpl; rewrite Eq; exact Hl]|].
        cbv beta iota zeta.
        assert (Hq : (length q <= Duplex.buffer_size s)%nat) by (simpl in Hl; lia).
        destruct (max_abs mono); [destruct (_ =? _)%nat; [|destruct (map _ mono) as [|? []]]|];
          split; simpl; solve [reflexivity | exact Hq].
      - apply (recv_body_pres
                 (fun s' => Duplex.buffer_size s' = Duplex.buffer_size s /\
                            (length (Duplex.recv_queue s') <= Duplex.buffer_size s)%nat)).
        + intros s0 n c H; exact H.
        + intros s0 H; exact H.
        + intros s0 x q [Hb Hq] E. split; [exact Hb|]. simpl.
          rewrite <- Hb in Hq |- *. rewrite <- Hb in Hc.
          exact (put_nowait_bound _ _ _ _ Hc Hq E).
        + split; [reflexivity | exact Hl]. }
    destruct H1 as [Hb Hq].
    destruct (IH s1) as [H2 H3]; [lia | lia |].
    split; lia.
Qed.

Lemma recv_queue_bounded_witness :
  (length (Duplex.recv_queue
     (fold_left (fun s (e : option nat) =>
                   match e with
                   | None => Duplex.final
                               (Duplex.recv_body (fun _ _ _ _ => 0%Q) (fun _ _ => Ok [1]%Z)
                                  [Processors.Bypass] (Processors.run (fun x => Ok x))) s
                   | Some frames => fst (Duplex.speaker_callback s frames)
                   end) [None; None; None; Some 960%nat; None] (Duplex.init 2 0)))
   <= Duplex.buffer_size (Duplex.init 2 0))%nat.
Proof.
  pose proof (recv_queue_bounded (fun _ _ _ _ => 0) (fun _ _ => Ok [1]%Z)
                [Processors.Bypass] (Processors.run (fun x => Ok x))
                [None; None; None; Some 960%nat; None] (Duplex.init 2 0)
                ltac:(simpl; lia) ltac:(simpl; lia)) as [_ H].
  exact H.
Defined.

(** X14: in bypass mode (index 0), when no datagram arrives before the
    socket timeout and the playback queue has room, one receive-loop
    iteration enqueues the upsampled 320-sample silent frame (960 samples),
    counts it as a received packet and as a timeout, and consumes the
    timeout. *)
Theorem recv_timeout_plays_silence : forall fir opus_decode procs runp s,
  (Duplex.net s = [] \/ exists rest, Duplex.net s = Comm.RecvTimeout :: rest) ->
  Duplex.current_idx s = 0%nat ->
  ((length (Duplex.recv_queue s) < Duplex.buffer_size s)%nat \/ Duplex.buffer_size s = 0%nat) ->
  let '(tr, s', r) := Duplex.recv_body fir opus_decode procs runp s in
  r = Ok tt /\ tr = [Duplex.Receive; Duplex.Upsample; Duplex.Enqueue] /\
  Duplex.recv_queue s' =
    Duplex.recv_queue s ++ [Resample.upsample_16k_to_48k fir (zeros 320)] /\
  length (Resample.upsample_16k_to_48k fir (zeros 320)) = 960%nat /\
  Duplex.packets_received s' = S (Duplex.packets_received s) /\
  Comm.timeout_count (Duplex.comm s') = S (Comm.timeout_count (Duplex.comm s)) /\
  Duplex.net s' = tl (Duplex.net s).
Proof.
  intros fir dec procs runp s Hn Hi Hb.
  assert (Hm : exists m, max_abs (zeros 320) = Ok m) by (eexists; reflexivity).
  destruct Hm as [m Hm].
  assert (Hp : Duplex.put_nowait (Duplex.buffer_size s) (Duplex.recv_queue s)
                 (Resample.upsample_16k_to_48k fir (zeros 320))
               = Ok (Duplex.recv_queue s ++ [Resample.upsample_16k_to_48k fir (zeros 320)])).
  { unfold Duplex.put_nowait.
    destruct Hb as [Hb|Hb].
    - replace (Duplex.buffer_size s <=? length (Duplex.recv_queue s))%nat with false
        by (symmetry; apply Nat.leb_gt; exact Hb).
      rewrite andb_false_r. reflexivity.
    - rewrite Hb. reflexivity. }
  unfold Duplex.recv_body, Duplex.comm_receive, Duplex.process_current,
    Duplex.enqueue_recv, Duplex.call, Duplex.pure, Duplex.modify, Duplex.ret,
    Duplex.try_except, Duplex.bind.
  destruct Hn as [Hn | [rest Hn]]; rewrite Hn; unfold Comm.receive, Comm.receive_try;
    cbv beta iota zeta; unfold Duplex.set_net_comm; cbn [Duplex.current_idx Duplex.buffer_size Duplex.recv_queue];
    rewrite Hi; cbn [Nat.ltb Nat.leb]; cbv beta iota zeta; rewrite Hm; cbv beta iota zeta; cbn [Duplex.buffer_size Duplex.recv_queue]; rewrite Hp;
    cbv beta iota zeta;
    (split; [reflexivity|]); (split; [reflexivity|]); (split; [reflexivity|]);
    (split; [unfold Resample.upsample_16k_to_48k; rewrite resample_up_length; unfold zeros; rewrite repeat_length; reflexivity|]);
    repeat split.
Qed.

Lemma recv_timeout_plays_silence_witness :
  let s := Duplex.init 3 0 in
  let fir := fun (_ : list Q) (_ _ _ : nat) => 0 in
  let '(tr, s', r) :=
    Duplex.recv_body fir (fun _ _ => Ok []) [Processors.Bypass]
      (Processors.run (fun x => Ok x)) s in
  r = Ok tt /\ tr = [Duplex.Receive; Duplex.Upsample; Duplex.Enqueue] /\
  Duplex.recv_queue s' =
    Duplex.recv_queue s ++ [Resample.upsample_16k_to_48k fir (zeros 320)] /\
  length (Resample.upsample_16k_to_48k fir (zeros 320)) = 960%nat /\
  Duplex.packets_received s' = S (Duplex.packets_received s) /\
  Comm.timeout_count (Duplex.comm s') = S (Comm.timeout_count (Duplex.comm s)) /\
  Duplex.net s' = tl (Duplex.net s).
Proof.
  exact (recv_timeout_plays_silence (fun _ _ _ _ => 0) (fun _ _ => Ok [])
           [Processors.Bypass] (Processors.run (fun x => Ok x)) (Duplex.init 3 0)
           (or_introl eq_refl) eq_refl (or_introl (Nat.lt_0_succ 2))).
Defined.

(** ** Public-WiFi send_thread: queue flush and 320-sample chunking *)

Lemma drop_oldest_spec : forall q,
  exists dropped, q = dropped ++ PublicWifi.drop_oldest q /\
                  length (PublicWifi.drop_oldest q) = Nat.min (length q) 3.
Proof.
  induction q as [|x r IH]; [exists []; split; reflexivity|].
  cbn [PublicWifi.drop_oldest].
  destruct (3 <? length (x :: r))%nat eqn:E.
  - apply Nat.ltb_lt in E. simpl in E.
    destruct IH as [d [Hd Hl]]. exists (x :: d). split; [simpl; rewrite <- Hd; reflexivity|].
    rewrite Hl. simpl. lia.
  - apply Nat.ltb_ge in E. exists []. split; [reflexivity|]. lia.
Qed.

(** X15: the flush at the top of [send_thread] only ever discards the
    oldest frames: what is left is a suffix of the queue, of exactly 3
    frames when more than 5 were waiting, and the whole queue otherwise. *)
Theorem flush_keeps_newest : forall q,
  exists dropped, q = dropped ++ PublicWifi.flush_send_queue q /\
  ((5 < length q)%nat -> length (PublicWifi.flush_send_queue q) = 3%nat) /\
  ((length q <= 5)%nat -> PublicWifi.flush_send_queue q = q).
Proof.
  intros q. unfold PublicWifi.flush_send_queue.
  destruct (5 <? length q)%nat eqn:E.
  - apply Nat.ltb_lt in E. destruct (drop_oldest_spec q) as [d [Hd Hl]].
    exists d. split; [exact Hd|]. split; [intros _; rewrite Hl; lia | intros; lia].
  - apply Nat.ltb_ge in E. exists []. split; [reflexivity|].
    split; [intros; lia | reflexivity].
Qed.

Lemma firstn_add : forall {A} a b (l : list A),
  firstn (a + b) l = firstn a l ++ firstn b (skipn a l).
Proof.
  intros A a. induction a as [|a IH]; intros b [|x l]; simpl; try reflexivity.
  - destruct b; reflexivity.
  - rewrite IH. reflexivity.
Qed.

Lemma concat_chunks : forall (audio : frame) n s,
  concat (map (fun i => firstn 320 (skipn (i * 320) audio)) (seq s n)) =
  firstn (n * 320) (skipn (s * 320) audio).
Proof.
  intros audio n. induction n as [|n IH]; intros s; [reflexivity|].
  cbn [seq map concat]. rewrite IH.
  change (S n * 320)%nat with (320 + n * 320)%nat.
  rewrite firstn_add, skipn_skipn. reflexivity.
Qed.

(** X16: [send_thread] cuts the processed frame into [len // 320] chunks of
    exactly 320 samples that, put end to end, are the frame's first
    [320 * (len // 320)] samples; the last [len mod 320] samples are never
    sent. *)
Theorem chunks_320_spec : forall audio,
  length (PublicWifi.chunks_320 audio) = (length audio / 320)%nat /\
  Forall (fun c => length c = 320%nat) (PublicWifi.chunks_320 audio) /\
  concat (PublicWifi.chunks_320 audio) ++ skipn (length audio / 320 * 320) audio = audio /\
  length (skipn (length audio / 320 * 320) audio) = (length audio mod 320)%nat.
Proof.
  intros audio. unfold PublicWifi.chunks_320.
  split; [rewrite length_map, length_seq; reflexivity|].
  split.
  - apply Forall_map. apply Forall_forall. intros i Hi.
    apply in_seq in Hi.
    assert (H : ((i + 1) * 320 <= length audio)%nat).
    { pose proof (Nat.Div0.mul_div_le (length audio) 320) as Hd. nia. }
    rewrite length_firstn, length_skipn. lia.
  - rewrite concat_chunks. change (skipn (0 * 320) audio) with audio.
    split; [apply firstn_skipn|].
    rewrite length_skipn.
    pose proof (Nat.div_mod_eq (length audio) 320). lia.
Qed.

Lemma send_fold_spec : forall opus_encode sendto chunks w n,
  let '(w', n') :=
    fold_left (fun '(w, n) chunk =>
                 let '(w', ok) := Comm.send opus_encode sendto w chunk in
                 (w', if ok then S n else n)) chunks (w, n) in
  (exists sent, w' = w ++ sent /\ n' = (n + length sent)%nat) /\
  (n' <= n + length chunks)%nat /\
  ((forall p, sendto p = Ok tt) ->
   w' = w ++ map (Codec.encode opus_encode Codec.comm_frame_size) chunks /\
   n' = (n + length chunks)%nat).
Proof.
  intros enc snd chunks. induction chunks as [|ch chunks IH]; intros w n; simpl.
  - split; [exists []; rewrite app_nil_r; split; [reflexivity | simpl; lia]|].
    split; [lia | intros _; rewrite app_nil_r; split; [reflexivity | lia]].
  - unfold Comm.send at 2.
    destruct (snd (Codec.encode enc Codec.comm_frame_size ch)) as [u|e] eqn:E.
    + specialize (IH (w ++ [Codec.encode enc Codec.comm_frame_size ch]) (S n)).
      destruct (fold_left _ chunks _) as [w' n'].
      destruct IH as [[sent [H1 H2]] [H3 H4]].
      split; [exists (Codec.encode enc Codec.comm_frame_size ch :: sent);
              rewrite H1, <- app_assoc; split; [reflexivity | simpl; lia]|].
      split; [lia|]. intros Hs. destruct (H4 Hs) as [H5 H6].
      rewrite H5, <- app_assoc. split; [reflexivity | lia].
    + specialize (IH w n).
      destruct (fold_left _ chunks _) as [w' n'].
      destruct IH as [[sent [H1 H2]] [H3 H4]].
      split; [exists sent; split; [exact H1 | exact H2]|].
      split; [lia|]. intros Hs. rewrite Hs in E. discriminate.
Qed.

(** X17: the counter [packets_sent] of the public-WiFi send loop grows by
    exactly the number of datagrams it puts on the wire, at most one per
    320-sample chunk; when every [sendto] succeeds, the wire receives the
    encoding of each chunk in order and the counter grows by [len // 320]. *)
Theorem send_chunks_count : forall opus_encode sendto w n audio,
  let '(w', n') := PublicWifi.send_chunks opus_encode sendto w n audio in
  (exists sent, w' = w ++ sent /\ n' = (n + length sent)%nat) /\
  (n' <= n + length audio / 320)%nat /\
  ((forall p, sendto p = Ok tt) ->
   w' = w ++ map (Codec.encode opus_encode Codec.comm_frame_size)
                 (PublicWifi.chunks_320 audio) /\
   n' = (n + length audio / 320)%nat).
Proof.
  intros enc snd w n audio. unfold PublicWifi.send_chunks.
  pose proof (send_fold_spec enc snd (PublicWifi.chunks_320 audio) w n) as H.
  destruct (chunks_320_spec audio) as [L _]. rewrite L in H. exact H.
Qed.

Lemma send_chunks_count_witness :
  let audio := repeat (1 # 4) 700 in
  let '(w', n') := PublicWifi.send_chunks (fun _ _ => Ok [Byte.x01]) (fun _ => Ok tt) [] 0 audio in
  (exists sent, w' = [] ++ sent /\ n' = (0 + length sent)%nat) /\
  (n' <= 0 + length audio / 320)%nat /\
  ((forall p, (fun _ : packet => Ok tt) p = Ok tt) ->
   w' = [] ++ map (Codec.encode (fun _ _ => Ok [Byte.x01]) Codec.comm_frame_size)
                  (PublicWifi.chunks_320 audio) /\
   n' = (0 + length audio / 320)%nat).
Proof.
  exact (send_chunks_count (fun _ _ => Ok [Byte.x01]) (fun _ => Ok tt) [] 0
           (repeat (1 # 4) 700)).
Defined.

(** ** Public-WiFi recv_thread: re-chunking into 2880-sample blocks *)






(** ** send_thread: datagrams and the packet counter *)

(** X20: one iteration of the send loop takes at most the head block of
    the capture queue, touches neither the playback queue nor the receive
    side, and puts at most one datagram on the wire; [packets_sent] grows by
    exactly the number of datagrams it puts there. *)
Theorem send_body_counts : forall fir opus_encode sendto s,
  let s' := Duplex.final (Duplex.send_body fir opus_encode sendto) s in
  (exists sent, Duplex.wire s' = Duplex.wire s ++ sent /\
                Duplex.packets_sent s' = (Duplex.packets_sent s + length sent)%nat /\
                (length sent <= 1)%nat) /\
  (Duplex.send_queue s' = Duplex.send_queue s \/
   exists x, Duplex.send_queue s = x :: Duplex.send_queue s') /\
  Duplex.recv_queue s' = Duplex.recv_queue s /\
  Duplex.packets_received s' = Duplex.packets_received s /\
  Duplex.comm s' = Duplex.comm s /\ Duplex.net s' = Duplex.net s.
Proof.
  intros fir enc sendto s.
  unfold Duplex.final, Duplex.send_body, Duplex.comm_send, Duplex.dequeue_send,
    Duplex.get_nowait, Duplex.call, Duplex.pure, Duplex.modify, Duplex.ret,
    Duplex.try_except, Duplex.bind.
  destruct (Duplex.send_queue s) as [|x q] eqn:Eq; cbv beta iota zeta.
  - split; [exists []; rewrite app_nil_r; simpl; split; [reflexivity | lia]|].
    split; [left; exact Eq | repeat split].
  - destruct (Resample.downsample_48k_to_16k fir x) as [a|e]; cbv beta iota zeta;
      [destruct (max_abs a) as [m|e]; cbv beta iota zeta;
       [destruct (sendto (Codec.encode enc Codec.comm_frame_size a)) as [u|e]; cbv beta iota zeta|]|].
    + split; [exists [Codec.encode enc Codec.comm_frame_size a]; simpl;
              split; [reflexivity | split; [lia | lia]]|].
      split; [right; exists x; reflexivity | repeat split].
    + split; [exists []; rewrite app_nil_r; simpl; split; [reflexivity | lia]|].
      split; [right; exists x; reflexivity | repeat split].
    + split; [exists []; rewrite app_nil_r; simpl; split; [reflexivity | lia]|].
      split; [right; exists x; reflexivity | repeat split].
    + split; [exists []; rewrite app_nil_r; simpl; split; [reflexivity | lia]|].
      split; [right; exists x; reflexivity | repeat split].
Qed.
